(** * Seller dashboard, Orders panel: a shallow embedding of
    [src/pages/SellerDashboard.tsx] (component [OrdersTab]).

    The panel is a React function component.  Its state hooks become one
    record, its asynchronous callbacks become resumptions that stop at every
    [await fetch(...)], and its render-time helpers become plain functions.

    Conventions for JavaScript values:
    - a JS string is a Rocq [string] holding the UTF-8 bytes of the text;
      truthiness of a string is non-emptiness;
    - [string | null] and optional fields are [option];
    - a time value ([Date#getTime]) is [option Z], [None] standing for NaN;
    - a finite [number] carried by JSON is an exact rational ([Q]); every
      finite double is one, and the code only compares and subtracts them. *)

From Stdlib Require Import ZArith QArith Qround Lqa String Ascii List Bool Lia.
From Stdlib Require Import DecimalString Sorted.
From stdpp Require Import base list strings.
Import ListNotations.
Local Open Scope string_scope.
Local Open Scope Z_scope.

(** ** JavaScript primitives used by the panel *)

Module Js.

(** Truthiness of a string: [!s] is [true] exactly for the empty string. *)
Definition truthy (s : string) : bool :=
  match s with
  | EmptyString => false
  | String _ _ => true
  end.

(** Truthiness of a [string | null | undefined] value. *)
Definition truthy_opt (s : option string) : bool :=
  match s with
  | Some s => truthy s
  | None => false
  end.

(** [s || d] for a possibly absent string [s]. *)
Definition or_else (s : option string) (d : string) : string :=
  match s with
  | Some s => if truthy s then s else d
  | None => d
  end.

(** Decimal rendering of an integer, as a template literal does it. *)
Definition string_of_Z (z : Z) : string :=
  NilZero.string_of_int (Z.to_int z).

Definition string_of_nat (n : nat) : string :=
  NilZero.string_of_uint (Nat.to_uint n).

(** *** [String.prototype.trim]

    The characters removed are ECMAScript's WhiteSpace and LineTerminator
    code points.  [ws_prefixes] lists their UTF-8 encodings. *)
Definition bytes (l : list Z) : string :=
  string_of_list_ascii (map (fun z => ascii_of_N (Z.to_N z)) l).

Definition ws_prefixes : list string :=
  [ bytes [9]; bytes [10]; bytes [11]; bytes [12]; bytes [13]; bytes [32]
  ; bytes [194; 160]                      (* U+00A0 *)
  ; bytes [225; 154; 128]                 (* U+1680 *)
  ; bytes [226; 128; 128]; bytes [226; 128; 129]; bytes [226; 128; 130]
  ; bytes [226; 128; 131]; bytes [226; 128; 132]; bytes [226; 128; 133]
  ; bytes [226; 128; 134]; bytes [226; 128; 135]; bytes [226; 128; 136]
  ; bytes [226; 128; 137]; bytes [226; 128; 138]   (* U+2000 .. U+200A *)
  ; bytes [226; 128; 168]; bytes [226; 128; 169]   (* U+2028, U+2029 *)
  ; bytes [226; 128; 175]                 (* U+202F *)
  ; bytes [226; 129; 159]                 (* U+205F *)
  ; bytes [227; 128; 128]                 (* U+3000 *)
  ; bytes [239; 187; 191] ].              (* U+FEFF *)

(** [strip_prefix p s] is the rest of [s] after the prefix [p], if any. *)
Fixpoint strip_prefix (p s : string) : option string :=
  match p, s with
  | EmptyString, _ => Some s
  | String a p', String b s' =>
      if Ascii.eqb a b then strip_prefix p' s' else None
  | String _ _, EmptyString => None
  end.

Fixpoint strip_any (ps : list string) (s : string) : option string :=
  match ps with
  | [] => None
  | p :: ps' =>
      match strip_prefix p s with
      | Some r => Some r
      | None => strip_any ps' s
      end
  end.

(** Drop leading white space; [fuel] bounds the number of code points. *)
Fixpoint trim_start_fuel (fuel : nat) (ps : list string) (s : string) : string :=
  match fuel with
  | O => s
  | S fuel' =>
      match strip_any ps s with
      | Some r => trim_start_fuel fuel' ps r
      | None => s
      end
  end.

Definition rev_string (s : string) : string :=
  string_of_list_ascii (rev (list_ascii_of_string s)).

Definition trimStart (s : string) : string :=
  trim_start_fuel (String.length s) ws_prefixes s.

Definition trimEnd (s : string) : string :=
  rev_string
    (trim_start_fuel (String.length s) (map rev_string ws_prefixes)
       (rev_string s)).

Definition trim (s : string) : string := trimEnd (trimStart s).

(** *** [String.prototype.includes] *)
Fixpoint includes (s sub : string) : bool :=
  match strip_prefix sub s with
  | Some _ => true
  | None =>
      match s with
      | EmptyString => false
      | String _ s' => includes s' sub
      end
  end.

(** *** [Number.prototype.toLocaleString('en-KE', {maximumFractionDigits: 0})]

    Rounding to an integer is half away from zero; the integer is printed
    with a comma between groups of three digits. *)
Definition round_half_expand (q : Q) : Z :=
  if Qle_bool 0 q then Qfloor (q + (1 # 2))%Q
  else - Qfloor (- q + (1 # 2))%Q.

(** [group3 n ds] walks the digits from the least significant one;
    [n] counts the digits already put in the current group. *)
Fixpoint group3 (n : nat) (ds : list ascii) : list ascii :=
  match ds with
  | [] => []
  | d :: ds' =>
      match n with
      | 3%nat => ","%char :: d :: group3 1 ds'
      | _ => d :: group3 (S n) ds'
      end
  end.

Definition group_thousands (digits : string) : string :=
  rev_string (string_of_list_ascii (group3 0 (rev (list_ascii_of_string digits)))).

Definition toLocaleString_enKE_0 (q : Q) : string :=
  let n := round_half_expand q in
  let body := group_thousands (string_of_Z (Z.abs n)) in
  if Qle_bool 0 q then body else "-" ++ body.

End Js.

(** A JS [number] as the formatter may receive it: NaN stands for every
    falsy non-number (NaN itself, or a missing field read as a number). *)
Inductive number : Type :=
| NaN
| Num (q : Q).

Definition number_falsy (n : number) : bool :=
  match n with
  | NaN => true
  | Num q => Qeq_bool q 0
  end.

(** ** Data model (the [interface] declarations of the panel) *)

Record OrderShipping : Type := mkOrderShipping {
  ship_courierName : string;
  ship_trackingNumber : string;
  ship_estimatedDeliveryDate : string;
  ship_notes : option string;
  ship_proofImages : option (list string)
}.

Record TimelineEvent : Type := mkTimelineEvent {
  title : string;
  completed : bool;
  completedAt : option string
}.

(** [status: 'pending' | 'accepted' | 'shipped' | 'completed' | 'dispute' |
    'cancelled'].  ([completed_] is the status; [completed] is the flag of a
    timeline event.) *)
Inductive Status : Type :=
| pending
| accepted
| shipped
| completed_
| dispute
| cancelled.

Definition status_string (s : Status) : string :=
  match s with
  | pending => "pending"
  | accepted => "accepted"
  | shipped => "shipped"
  | completed_ => "completed"
  | dispute => "dispute"
  | cancelled => "cancelled"
  end.

Record Order : Type := mkOrder {
  id : string;
  buyerName : string;
  buyerPhone : string;
  buyerLocation : string;
  buyerMemberSince : option string;
  buyerRating : option Q;
  buyerPurchases : option Q;
  itemName : string;
  quantity : Q;
  amount : Q;
  status : Status;
  createdAt : string;
  deadline : string;
  buyerMessage : option string;
  messageCreatedAt : option string;
  shipping : option OrderShipping;
  timeline : option (list TimelineEvent)
}.

Record UIState : Type := mkUIState {
  loading : bool;
  orderDetailOpen : bool;
  shippingModalOpen : bool;
  proofUploadOpen : bool;
  messageModalOpen : bool;
  errorNotification : option string;
  successNotification : option string
}.

(** A [File] of the browser, known here by its name only. *)
Record File : Type := mkFile { file_name : string }.

Record ShippingFormState : Type := mkShippingFormState {
  courierName : string;
  trackingNumber : string;
  estimatedDeliveryDate : string;
  notes : string;
  proofImages : list File
}.

(** The [useState] cells of [OrdersTab], in declaration order. *)
Record State : Type := mkState {
  orders : option (list Order);
  selectedOrder : option Order;
  filterStatus : string;
  searchQuery : string;
  sortBy : string;
  ui : UIState;
  shippingForm : ShippingFormState;
  messageInput : string
}.

Definition emptyShippingForm : ShippingFormState :=
  {| courierName := ""; trackingNumber := ""; estimatedDeliveryDate := "";
     notes := ""; proofImages := [] |}.

Definition initialState : State :=
  {| orders := None;
     selectedOrder := None;
     filterStatus := "all";
     searchQuery := "";
     sortBy := "newest";
     ui := {| loading := true; orderDetailOpen := false;
              shippingModalOpen := false; proofUploadOpen := false;
              messageModalOpen := false; errorNotification := None;
              successNotification := None |};
     shippingForm := emptyShippingForm;
     messageInput := "" |}.

(** State setters: [setUi(prev => ({...prev, field: v}))] and the plain
    [setX(v)] calls. *)
Definition setUi (f : UIState -> UIState) (st : State) : State :=
  {| orders := orders st; selectedOrder := selectedOrder st;
     filterStatus := filterStatus st; searchQuery := searchQuery st;
     sortBy := sortBy st; ui := f (ui st);
     shippingForm := shippingForm st; messageInput := messageInput st |}.

Definition setOrders (v : option (list Order)) (st : State) : State :=
  {| orders := v; selectedOrder := selectedOrder st;
     filterStatus := filterStatus st; searchQuery := searchQuery st;
     sortBy := sortBy st; ui := ui st;
     shippingForm := shippingForm st; messageInput := messageInput st |}.

Definition setSelectedOrder (v : option Order) (st : State) : State :=
  {| orders := orders st; selectedOrder := v;
     filterStatus := filterStatus st; searchQuery := searchQuery st;
     sortBy := sortBy st; ui := ui st;
     shippingForm := shippingForm st; messageInput := messageInput st |}.

Definition setShippingForm (v : ShippingFormState) (st : State) : State :=
  {| orders := orders st; selectedOrder := selectedOrder st;
     filterStatus := filterStatus st; searchQuery := searchQuery st;
     sortBy := sortBy st; ui := ui st;
     shippingForm := v; messageInput := messageInput st |}.

Definition setMessageInput (v : string) (st : State) : State :=
  {| orders := orders st; selectedOrder := selectedOrder st;
     filterStatus := filterStatus st; searchQuery := searchQuery st;
     sortBy := sortBy st; ui := ui st;
     shippingForm := shippingForm st; messageInput := v |}.

Definition with_loading (b : bool) (u : UIState) : UIState :=
  {| loading := b; orderDetailOpen := orderDetailOpen u;
     shippingModalOpen := shippingModalOpen u;
     proofUploadOpen := proofUploadOpen u;
     messageModalOpen := messageModalOpen u;
     errorNotification := errorNotification u;
     successNotification := successNotification u |}.

Definition with_orderDetailOpen (b : bool) (u : UIState) : UIState :=
  {| loading := loading u; orderDetailOpen := b;
     shippingModalOpen := shippingModalOpen u;
     proofUploadOpen := proofUploadOpen u;
     messageModalOpen := messageModalOpen u;
     errorNotification := errorNotification u;
     successNotification := successNotification u |}.

Definition with_shippingModalOpen (b : bool) (u : UIState) : UIState :=
  {| loading := loading u; orderDetailOpen := orderDetailOpen u;
     shippingModalOpen := b;
     proofUploadOpen := proofUploadOpen u;
     messageModalOpen := messageModalOpen u;
     errorNotification := errorNotification u;
     successNotification := successNotification u |}.

Definition with_proofUploadOpen (b : bool) (u : UIState) : UIState :=
  {| loading := loading u; orderDetailOpen := orderDetailOpen u;
     shippingModalOpen := shippingModalOpen u;
     proofUploadOpen := b;
     messageModalOpen := messageModalOpen u;
     errorNotification := errorNotification u;
     successNotification := successNotification u |}.

Definition with_messageModalOpen (b : bool) (u : UIState) : UIState :=
  {| loading := loading u; orderDetailOpen := orderDetailOpen u;
     shippingModalOpen := shippingModalOpen u;
     proofUploadOpen := proofUploadOpen u;
     messageModalOpen := b;
     errorNotification := errorNotification u;
     successNotification := successNotification u |}.

Definition with_errorNotification (v : option string) (u : UIState) : UIState :=
  {| loading := loading u; orderDetailOpen := orderDetailOpen u;
     shippingModalOpen := shippingModalOpen u;
     proofUploadOpen := proofUploadOpen u;
     messageModalOpen := messageModalOpen u;
     errorNotification := v;
     successNotification := successNotification u |}.

Definition with_successNotification (v : option string) (u : UIState) : UIState :=
  {| loading := loading u; orderDetailOpen := orderDetailOpen u;
     shippingModalOpen := shippingModalOpen u;
     proofUploadOpen := proofUploadOpen u;
     messageModalOpen := messageModalOpen u;
     errorNotification := errorNotification u;
     successNotification := v |}.

(** ** Presentation helpers *)

(** [amount.toLocaleString('en-KE', { maximumFractionDigits: 0 })] *)
Definition number_toLocaleString (n : number) : string :=
  match n with
  | NaN => "NaN"
  | Num q => Js.toLocaleString_enKE_0 q
  end.

(** [formatCurrency]: ['KES 0'] for a falsy amount, otherwise the amount in
    the en-KE locale without fraction digits. *)
Definition formatCurrency (amount : number) : string :=
  if number_falsy amount then "KES 0"
  else "KES " ++ number_toLocaleString amount.

(** Arithmetic on time values; NaN ([None]) is absorbing and every
    comparison with it is false. *)
Module Time.

Definition sub (a b : option Z) : option Z :=
  match a, b with
  | Some x, Some y => Some (x - y)
  | _, _ => None
  end.

(** [Math.floor(a / d)] for a positive integer constant [d]. *)
Definition floor_div (a : option Z) (d : Z) : option Z :=
  match a with
  | Some x => Some (x / d)
  | None => None
  end.

Definition lt (a : option Z) (b : Z) : bool :=
  match a with
  | Some x => x <? b
  | None => false
  end.

Definition strict_eq (a : option Z) (b : Z) : bool :=
  match a with
  | Some x => x =? b
  | None => false
  end.

(** [`${a}`] *)
Definition to_string (a : option Z) : string :=
  match a with
  | Some x => Js.string_of_Z x
  | None => "NaN"
  end.

End Time.

Section Locale.

(** [new Date(s).getTime()]: the time value in milliseconds, NaN when the
    string is not a date.  The parser belongs to the JavaScript engine. *)
Variable Date_parse : string -> option Z.

(** [Date#toLocaleDateString('en-KE')] of a valid date; it belongs to the
    engine's locale data and depends on the time zone of the browser. *)
Variable localeDate_enKE : Z -> string.

Definition toLocaleDateString (t : option Z) : string :=
  match t with
  | Some ms => localeDate_enKE ms
  | None => "Invalid Date"
  end.

(** [formatTime]; [now] is [new Date().getTime()] at the call. *)
Definition formatTime (now : Z) (dateString : string) : string :=
  if negb (Js.truthy dateString) then "unknown"
  else
    let date := Date_parse dateString in
    let diffMs := Time.sub (Some now) date in
    let diffSecs := Time.floor_div diffMs 1000 in
    let diffMins := Time.floor_div diffSecs 60 in
    let diffHours := Time.floor_div diffMins 60 in
    let diffDays := Time.floor_div diffHours 24 in
    if Time.lt diffSecs 60 then "just now"
    else if Time.lt diffMins 60 then Time.to_string diffMins ++ "m ago"
    else if Time.lt diffHours 24 then Time.to_string diffHours ++ "h ago"
    else if Time.strict_eq diffDays 1 then "yesterday"
    else if Time.lt diffDays 7 then Time.to_string diffDays ++ "d ago"
    else toLocaleDateString date.

(** The time line under the buyer's message in the detail view:
    [formatTime(selectedOrder.messageCreatedAt || '')], rendered only when
    [selectedOrder.buyerMessage] is truthy. *)
Definition buyerMessageTime (now : Z) (o : Order) : option string :=
  if Js.truthy_opt (buyerMessage o)
  then Some (formatTime now (Js.or_else (messageCreatedAt o) ""))
  else None.

End Locale.

(** ** The backend as the panel sees it *)

Inductive Method : Type := GET | POST.

(** The paths under [/api/v1/seller]. *)
Inductive Endpoint : Type :=
| EpOrders
| EpOrder (orderId : string)
| EpAccept (orderId : string)
| EpReject (orderId : string)
| EpShipping (orderId : string)
| EpMessages (orderId : string).

Definition url (e : Endpoint) : string :=
  match e with
  | EpOrders => "/api/v1/seller/orders"
  | EpOrder i => "/api/v1/seller/orders/" ++ i
  | EpAccept i => "/api/v1/seller/orders/" ++ i ++ "/accept"
  | EpReject i => "/api/v1/seller/orders/" ++ i ++ "/reject"
  | EpShipping i => "/api/v1/seller/orders/" ++ i ++ "/shipping"
  | EpMessages i => "/api/v1/seller/orders/" ++ i ++ "/messages"
  end.

Inductive FormValue : Type :=
| FText (s : string)
| FFile (f : File).

Inductive RequestBody : Type :=
| NoBody
| FormData (entries : list (string * FormValue))
| JsonMessage (message : string).       (* JSON.stringify({ message }) *)

Record Request : Type := mkRequest {
  req_method : Method;
  req_endpoint : Endpoint;
  req_headers : list (string * string);
  req_body : RequestBody
}.

(** What [response.json()] carries in its [data] field, per endpoint. *)
Definition data_of (e : Endpoint) : Type :=
  match e with
  | EpOrders => list Order
  | EpOrder _ => Order
  | _ => unit
  end.

(** [await response.json()] and the reading of its [data] field: one of
    them throws, or the field is there or missing. *)
Inductive JsonResult (A : Type) : Type :=
| JsonThrows (message : option string)
| JsonData (data : option A).
Arguments JsonThrows {A} message.
Arguments JsonData {A} data.

(** How [await fetch(...)] settles: the promise rejects with a value whose
    [message] may be missing, or resolves to a response with its [ok] flag. *)
Inductive Outcome (A : Type) : Type :=
| Rejected (message : option string)
| Response (ok : bool) (json : JsonResult A).
Arguments Rejected {A} message.
Arguments Response {A} ok json.

(** ** Asynchronous callbacks as resumptions

    An [async] function runs until its first [await fetch(...)]; the rest
    is a continuation resumed when the request settles.  [Call] is the call
    of an async function that the caller does not await.  ([console.error]
    has no effect on the panel and is left out.) *)
Inductive Task : Type :=
| Done
| SetState (f : State -> State) (k : Task)
| Fetch (r : Request) (k : Outcome (data_of (req_endpoint r)) -> Task)
| Call (t : Task) (k : Task).

Record Pending : Type := mkPending {
  p_request : Request;
  p_resume : Outcome (data_of (req_endpoint p_request)) -> Task
}.

(** The panel together with the network: [network] is every request
    dispatched so far, oldest first; [inflight] the requests not settled yet. *)
Record Config : Type := mkConfig {
  state : State;
  network : list Request;
  inflight : list Pending
}.

(** Run a task up to its awaits. *)
Fixpoint run (t : Task) (c : Config) : Config :=
  match t with
  | Done => c
  | SetState f k =>
      run k {| state := f (state c); network := network c; inflight := inflight c |}
  | Fetch r k =>
      {| state := state c;
         network := network c ++ [r];
         inflight := inflight c ++ [mkPending r k] |}
  | Call t' k => run k (run t' c)
  end.

(** The answers of the backend at one instant. *)
Definition Server : Type := forall r : Request, Outcome (data_of (req_endpoint r)).

(** The [i]-th request in flight settles with the server's answer. *)
Definition settle (i : nat) (srv : Server) (c : Config) : Config :=
  match inflight c !! i with
  | Some p =>
      run (p_resume p (srv (p_request p)))
        {| state := state c; network := network c;
           inflight := delete i (inflight c) |}
  | None => c
  end.

(** A user event (or a call made while rendering) starts a task. *)
Definition start (t : Task) (st : State) : Config :=
  run t {| state := st; network := []; inflight := [] |}.

Section Panel.

(** [localStorage.getItem('authToken')] *)
Variable authToken : option string.

Definition bearer : string :=
  "Bearer " ++ match authToken with Some t => t | None => "null" end.

Definition jsonHeaders : list (string * string) :=
  [("Authorization", bearer); ("Content-Type", "application/json")].

Definition setError (msg : string) : State -> State :=
  setUi (with_errorNotification (Some msg)).

Definition fetchOrders : Task :=
  let finally := SetState (setUi (with_loading false)) Done in
  let catch (message : option string) :=
    SetState
      (setError (Js.or_else message "Failed to load orders. Please try again."))
      (SetState (setOrders (Some [])) finally) in
  SetState (setUi (fun prev => with_errorNotification None (with_loading true prev)))
    (Fetch (mkRequest GET EpOrders jsonHeaders NoBody)
       (fun out : Outcome (list Order) =>
          match out with
          | Rejected message => catch message
          | Response false _ => catch (Some "Failed to fetch orders")
          | Response true (JsonThrows message) => catch message
          | Response true (JsonData data) =>
              SetState (setOrders (Some (default [] data))) finally
          end)).

Definition fetchOrderDetails (orderId : string) : Task :=
  let catch :=
    SetState (setError "Failed to load order details") Done in
  Fetch (mkRequest GET (EpOrder orderId) jsonHeaders NoBody)
    (fun out : Outcome Order =>
       match out with
       | Rejected _ => catch
       | Response false _ => catch
       | Response true (JsonThrows _) => catch
       | Response true (JsonData data) =>
           SetState (setSelectedOrder data)
             (SetState (setUi (with_orderDetailOpen true)) Done)
       end).

Definition acceptOrder (orderId : string) : Task :=
  let catch (message : option string) :=
    SetState (setError (Js.or_else message "Failed to accept order")) Done in
  Fetch (mkRequest POST (EpAccept orderId) jsonHeaders NoBody)
    (fun out : Outcome unit =>
       match out with
       | Rejected message => catch message
       | Response false _ => catch (Some "Failed to accept order")
       | Response true _ =>
           SetState
             (setUi (with_successNotification (Some "Order accepted successfully!")))
             (Call fetchOrders (Call (fetchOrderDetails orderId) Done))
       end).

Definition rejectOrder (orderId : string) : Task :=
  let catch (message : option string) :=
    SetState (setError (Js.or_else message "Failed to reject order")) Done in
  Fetch (mkRequest POST (EpReject orderId) jsonHeaders NoBody)
    (fun out : Outcome unit =>
       match out with
       | Rejected message => catch message
       | Response false _ => catch (Some "Failed to reject order")
       | Response true _ =>
           SetState
             (setUi (fun prev =>
                       with_orderDetailOpen false
                         (with_successNotification (Some "Order rejected") prev)))
             (Call fetchOrders Done)
       end).

Definition shippingFormData (form : ShippingFormState) : list (string * FormValue) :=
  [ ("courierName", FText (courierName form))
  ; ("trackingNumber", FText (trackingNumber form))
  ; ("estimatedDeliveryDate", FText (estimatedDeliveryDate form))
  ; ("notes", FText (notes form)) ]
  ++ imap (fun idx image =>
             ("proofImages[" ++ Js.string_of_nat idx ++ "]", FFile image))
       (proofImages form).

(** [submitShippingInfo] closes over the [shippingForm] of the render in
    which the callback was made. *)
Definition submitShippingInfo (form : ShippingFormState) (orderId : string) : Task :=
  let catch (message : option string) :=
    SetState (setError (Js.or_else message "Failed to submit shipping info")) Done in
  if negb (Js.truthy (courierName form))
     || negb (Js.truthy (trackingNumber form))
     || negb (Js.truthy (estimatedDeliveryDate form))
  then SetState (setError "Please fill in all required fields") Done
  else
    Fetch (mkRequest POST (EpShipping orderId)
             [("Authorization", bearer)] (FormData (shippingFormData form)))
      (fun out : Outcome unit =>
         match out with
         | Rejected message => catch message
         | Response false _ => catch (Some "Failed to submit shipping info")
         | Response true _ =>
             SetState
               (setUi (fun prev =>
                         with_shippingModalOpen false
                           (with_successNotification
                              (Some "Shipping information added successfully!") prev)))
               (SetState (setShippingForm emptyShippingForm)
                  (Call fetchOrders (Call (fetchOrderDetails orderId) Done)))
         end).

(** [sendMessage] closes over [messageInput]. *)
Definition sendMessage (input : string) (orderId : string) : Task :=
  let catch (message : option string) :=
    SetState (setError (Js.or_else message "Failed to send message")) Done in
  if negb (Js.truthy (Js.trim input))
  then SetState (setError "Message cannot be empty") Done
  else
    Fetch (mkRequest POST (EpMessages orderId) jsonHeaders (JsonMessage input))
      (fun out : Outcome unit =>
         match out with
         | Rejected message => catch message
         | Response false _ => catch (Some "Failed to send message")
         | Response true _ =>
             SetState (setMessageInput "")
               (SetState (setUi (with_successNotification (Some "Message sent!")))
                  (Call (fetchOrderDetails orderId) Done))
         end).

End Panel.

(** ** Notification timers (the two auto-dismiss effects) *)

(** The delay of the timer an effect arms after a render, if it arms one. *)
Definition successTimer (u : UIState) : option Z :=
  if Js.truthy_opt (successNotification u) then Some 3000 else None.

Definition errorTimer (u : UIState) : option Z :=
  if Js.truthy_opt (errorNotification u) then Some 5000 else None.

Definition onSuccessTimeout : State -> State :=
  setUi (with_successNotification None).

Definition onErrorTimeout : State -> State :=
  setUi (with_errorNotification None).

(** ** The order detail view *)

#[global] Instance Status_eq_dec : EqDecision Status.
Proof. solve_decision. Defined.

(** The [onClick] handlers of the buttons of [OrderDetailModal]. *)
Inductive Handler : Type :=
| CloseDetail                       (* header X and footer Close *)
| OpenMessageModal                  (* Message *)
| ClickReject (orderId : string)    (* Reject Order *)
| ClickAccept (orderId : string)    (* Accept Order *)
| OpenShippingModal                 (* Add Shipping Info *)
| OpenProofUpload.                  (* Update Proof *)

Definition onClick (authToken : option string) (h : Handler) : Task :=
  match h with
  | CloseDetail => SetState (setUi (with_orderDetailOpen false)) Done
  | OpenMessageModal => SetState (setUi (with_messageModalOpen true)) Done
  | ClickReject i => rejectOrder authToken i
  | ClickAccept i => acceptOrder authToken i
  | OpenShippingModal => SetState (setUi (with_shippingModalOpen true)) Done
  | OpenProofUpload => SetState (setUi (with_proofUploadOpen true)) Done
  end.

(** The footer of the modal ("Footer Actions"), in document order. *)
Definition footerActions (selected : Order) : list Handler :=
  (if bool_decide (status selected = pending)
   then [ClickReject (id selected); ClickAccept (id selected)] else [])
  ++ (if bool_decide (status selected = accepted) then [OpenShippingModal] else [])
  ++ (if bool_decide (status selected = shipped) then [OpenProofUpload] else [])
  ++ [CloseDetail].

(** Every button of the modal; [None] when the component returns [null]. *)
Definition OrderDetailModal (selected : option Order) : option (list Handler) :=
  match selected with
  | None => None
  | Some o => Some ([CloseDetail; OpenMessageModal] ++ footerActions o)%list
  end.

(** The seller's lifecycle actions of section 4.1 and the buttons that
    start them. *)
Inductive LifecycleAction : Type :=
| Accept
| Reject
| AddShippingInfo
| UpdateProof.

Definition lifecycle_of (h : Handler) : option LifecycleAction :=
  match h with
  | ClickAccept _ => Some Accept
  | ClickReject _ => Some Reject
  | OpenShippingModal => Some AddShippingInfo
  | OpenProofUpload => Some UpdateProof
  | CloseDetail | OpenMessageModal => None
  end.

Definition offeredActions (selected : option Order) : list LifecycleAction :=
  match OrderDetailModal selected with
  | Some buttons => omap lifecycle_of buttons
  | None => []
  end.

(** ** The list view: filter, search, sort *)

(** Array objects live in a store and are known by reference, because
    [Array.prototype.sort] sorts its receiver in place. *)
Module Heap.

Abbreviation Store := (list (list Order)).

(** The contents of an array; a reference the store does not hold reads
    as the empty array (the render never makes one). *)
Definition deref (h : Store) (r : nat) : list Order := default [] (h !! r).

Definition alloc (a : list Order) (h : Store) : nat * Store :=
  (length h, (h ++ [a])%list).

(** [Array.prototype.filter]: a new array. *)
Definition Array_filter (p : Order -> bool) (r : nat) (h : Store) : nat * Store :=
  alloc (List.filter p (deref h r)) h.

(** [SortCompare]: is [x] to be placed after [y]?  A NaN from the
    comparator counts as [+0]. *)
Definition after (cmp : Order -> Order -> number) (x y : Order) : bool :=
  match cmp x y with
  | NaN => false
  | Num v => negb (Qle_bool v 0)
  end.

Fixpoint insert (cmp : Order -> Order -> number) (x : Order) (l : list Order)
  : list Order :=
  match l with
  | [] => [x]
  | y :: l' => if after cmp x y then y :: insert cmp x l' else x :: l
  end.

(** The sort order of [Array.prototype.sort].  ECMAScript requires a
    stable sort; for a consistent comparator that fixes the result, which
    is the one of this insertion sort.  For a comparator that is not
    consistent the language leaves the order to the engine. *)
Definition sort_by (cmp : Order -> Order -> number) (l : list Order) : list Order :=
  foldr (insert cmp) [] l.

(** [Array.prototype.sort]: sorts the receiver in place and returns it. *)
Definition Array_sort (cmp : Order -> Order -> number) (r : nat) (h : Store)
  : nat * Store :=
  (r, <[r := sort_by cmp (deref h r)]> h).

End Heap.

Section ListView.

(** [String.prototype.toLowerCase]; the case tables are the engine's. *)
Variable toLowerCase : string -> string.

(** [new Date(s).getTime()], NaN ([None]) for a string that is no date. *)
Variable Date_parse : string -> option Z.

Definition matchesFilter (filterStatus : string) (order : Order) : bool :=
  String.eqb filterStatus "all"
  || String.eqb (status_string (status order)) filterStatus.

Definition matchesSearch (searchQuery : string) (order : Order) : bool :=
  negb (Js.truthy searchQuery)
  || Js.includes (toLowerCase (id order)) (toLowerCase searchQuery)
  || Js.includes (toLowerCase (buyerName order)) (toLowerCase searchQuery).

(** The callback given to [filter]. *)
Definition filterCallback (filterStatus searchQuery : string) (order : Order) : bool :=
  matchesFilter filterStatus order && matchesSearch searchQuery order.

Definition time_diff (x y : option Z) : number :=
  match Time.sub x y with
  | Some d => Num (inject_Z d)
  | None => NaN
  end.

(** The callback given to [sort]. *)
Definition compareFn (sortBy : string) (a b : Order) : number :=
  if String.eqb sortBy "newest"
  then time_diff (Date_parse (createdAt b)) (Date_parse (createdAt a))
  else if String.eqb sortBy "oldest"
  then time_diff (Date_parse (createdAt a)) (Date_parse (createdAt b))
  else if String.eqb sortBy "amount-high" then Num (amount b - amount a)%Q
  else if String.eqb sortBy "amount-low" then Num (amount a - amount b)%Q
  else Num 0%Q.

(** [filteredOrders], computed at every render from the array held by the
    [orders] cell ([None] is [null]). *)
Definition filteredOrders (orders : option nat)
    (filterStatus searchQuery sortBy : string) (h : Heap.Store)
  : nat * Heap.Store :=
  match orders with
  | Some r =>
      let '(r1, h1) := Heap.Array_filter (filterCallback filterStatus searchQuery) r h in
      Heap.Array_sort (compareFn sortBy) r1 h1
  | None => Heap.alloc [] h
  end.

(** The orders the list shows: the contents of the array [filteredOrders]
    evaluates to. *)
Definition visibleOrders (orders : option nat)
    (filterStatus searchQuery sortBy : string) (h : Heap.Store) : list Order :=
  let '(r, h') := filteredOrders orders filterStatus searchQuery sortBy h in
  Heap.deref h' r.

End ListView.

(** ** Vocabulary of the statements *)

(** A rendered number without its grouping commas. *)
Definition ungroup (s : string) : string :=
  string_of_list_ascii
    (List.filter (fun c => negb (Ascii.eqb c ","%char)) (list_ascii_of_string s)).

(** The forms a relative time can take. *)
Inductive RelativeTime (localeDate_enKE : Z -> string) : string -> Prop :=
| rt_unknown : RelativeTime localeDate_enKE "unknown"
| rt_just_now : RelativeTime localeDate_enKE "just now"
| rt_minutes (n : option Z) :
    RelativeTime localeDate_enKE (Time.to_string n ++ "m ago")
| rt_hours (n : option Z) :
    RelativeTime localeDate_enKE (Time.to_string n ++ "h ago")
| rt_yesterday : RelativeTime localeDate_enKE "yesterday"
| rt_days (n : option Z) :
    RelativeTime localeDate_enKE (Time.to_string n ++ "d ago")
| rt_date (t : option Z) :
    RelativeTime localeDate_enKE (toLocaleDateString localeDate_enKE t).

(** The value a [catch] block receives for a settled request, if the [try]
    block throws: the rejection of [fetch], the [Error] the callback throws
    itself for a response that is not ok (its text is [notOk]), or the
    failure of [response.json()].  The result is the [message] of that
    value. *)
Definition thrown {A : Type} (notOk : string) (readsBody : bool) (out : Outcome A)
  : option (option string) :=
  match out with
  | Rejected message => Some message
  | Response false _ => Some (Some notOk)
  | Response true (JsonThrows message) =>
      if readsBody then Some message else None
  | Response true (JsonData _) => None
  end.

(** The requests of the panel. *)
Definition getOrders (authToken : option string) : Request :=
  mkRequest GET EpOrders (jsonHeaders authToken) NoBody.

Definition getOrder (authToken : option string) (orderId : string) : Request :=
  mkRequest GET (EpOrder orderId) (jsonHeaders authToken) NoBody.

Definition postReject (authToken : option string) (orderId : string) : Request :=
  mkRequest POST (EpReject orderId) (jsonHeaders authToken) NoBody.

Definition postShipping (authToken : option string) (form : ShippingFormState)
    (orderId : string) : Request :=
  mkRequest POST (EpShipping orderId) [("Authorization", bearer authToken)]
    (FormData (shippingFormData form)).

Definition postMessage (authToken : option string) (input orderId : string) : Request :=
  mkRequest POST (EpMessages orderId) (jsonHeaders authToken) (JsonMessage input).

(** Is [r] a request for the detail of an order? *)
Definition is_detail_request (r : Request) : bool :=
  match req_endpoint r with
  | EpOrder _ => true
  | _ => false
  end.

(** What the spec asks of a failed fetch, for the message [message] of the
    failure and a fallback text: the message, or else the fallback, becomes
    the error notification, and the order list becomes empty. *)
Definition failure_contract (fallback : string) (message : option string)
    (st : State) : Prop :=
  errorNotification (ui st) = Some (Js.or_else message fallback)
  /\ orders st = Some [].

(** The order list the panel holds once a list fetch has settled with
    [out]. *)
Definition fetched_orders (out : Outcome (list Order)) : list Order :=
  match out with
  | Response true (JsonData data) => default [] data
  | _ => []
  end.

Definition sampleOrder : Order :=
  {| id := "ORD-1"; buyerName := "Amina"; buyerPhone := "0700";
     buyerLocation := "Nairobi"; buyerMemberSince := None;
     buyerRating := None; buyerPurchases := None;
     itemName := "Kettle"; quantity := 1; amount := 2500;
     status := pending; createdAt := "2023-11-14T22:13:20Z";
     deadline := "2023-11-20T00:00:00Z";
     buyerMessage := Some "Please deliver on Friday";
     messageCreatedAt := None; shipping := None; timeline := None |}.

(** Do [a] and [b] have the same sort key under [sortBy]?  The key is the
    creation time for ['newest'] and ['oldest'] (two orders share it when
    both dates parse to the same instant), the amount for ['amount-high']
    and ['amount-low']; under any other value of [sortBy] the comparator
    ranks all orders equal. *)
Definition same_key (Date_parse : string -> option Z) (sortBy : string)
    (a b : Order) : bool :=
  if String.eqb sortBy "newest" || String.eqb sortBy "oldest"
  then match Date_parse (createdAt a), Date_parse (createdAt b) with
       | Some x, Some y => x =? y
       | _, _ => false
       end
  else if String.eqb sortBy "amount-high" || String.eqb sortBy "amount-low"
  then Qeq_bool (amount a) (amount b)
  else true.

(** The comparator given to [sort] is consistent on [l]: when it compares
    creation times, every [createdAt] is a date. *)
Definition consistent_keys (Date_parse : string -> option Z) (sortBy : string)
    (l : list Order) : Prop :=
  sortBy = "newest" \/ sortBy = "oldest" ->
  Forall (fun o => Date_parse (createdAt o) <> None) l.

(** The place of an order in the sort order chosen by [sortBy]: orders are
    listed by increasing rank.  Newest first is by decreasing creation
    time, highest amount first by decreasing amount. *)
Definition rank (Date_parse : string -> option Z) (sortBy : string) (o : Order) : Q :=
  if String.eqb sortBy "newest"
  then inject_Z (- default 0 (Date_parse (createdAt o)))
  else if String.eqb sortBy "oldest"
  then inject_Z (default 0 (Date_parse (createdAt o)))
  else if String.eqb sortBy "amount-high" then (- amount o)%Q
  else if String.eqb sortBy "amount-low" then amount o
  else 0%Q.

Definition by_rank (Date_parse : string -> option Z) (sortBy : string)
    (a b : Order) : Prop :=
  (rank Date_parse sortBy a <= rank Date_parse sortBy b)%Q.

(** Sample data: two orders created at the same instant for the same
    amount, and a later, cheaper one between them. *)
Definition sampleLater : Order :=
  {| id := "ORD-2"; buyerName := "Brian"; buyerPhone := "0711";
     buyerLocation := "Mombasa"; buyerMemberSince := None;
     buyerRating := None; buyerPurchases := None;
     itemName := "Lamp"; quantity := 2; amount := 100;
     status := accepted; createdAt := "2023-11-15T22:13:20Z";
     deadline := "2023-11-21T00:00:00Z";
     buyerMessage := None; messageCreatedAt := None;
     shipping := None; timeline := None |}.

Definition sampleTwin : Order :=
  {| id := "ORD-3"; buyerName := "Chebet"; buyerPhone := "0722";
     buyerLocation := "Kisumu"; buyerMemberSince := None;
     buyerRating := None; buyerPurchases := None;
     itemName := "Kettle"; quantity := 1; amount := 2500;
     status := pending; createdAt := "2023-11-14T22:13:20Z";
     deadline := "2023-11-20T00:00:00Z";
     buyerMessage := None; messageCreatedAt := None;
     shipping := None; timeline := None |}.

(** A date parser that knows the two sample dates. *)
Definition sampleParse (s : string) : option Z :=
  if String.eqb s "2023-11-14T22:13:20Z" then Some 1700000000000
  else if String.eqb s "2023-11-15T22:13:20Z" then Some 1700086400000
  else None.

(** The order of the scenario once accepted, and a backend that accepts
    every request and reports that order. *)
Definition acceptedOrder : Order :=
  {| id := "ORD-1"; buyerName := "Amina"; buyerPhone := "0700";
     buyerLocation := "Nairobi"; buyerMemberSince := None;
     buyerRating := None; buyerPurchases := None;
     itemName := "Kettle"; quantity := 1; amount := 2500;
     status := accepted; createdAt := "2023-11-14T22:13:20Z";
     deadline := "2023-11-20T00:00:00Z";
     buyerMessage := Some "Please deliver on Friday";
     messageCreatedAt := None; shipping := None; timeline := None |}.

Definition acceptingServer : Server :=
  fun r =>
    match req_endpoint r as e return Outcome (data_of e) with
    | EpOrders => Response true (JsonData (Some [acceptedOrder]))
    | EpOrder _ => Response true (JsonData (Some acceptedOrder))
    | _ => Response true (JsonData None)
    end.

From Stdlib Require DecimalNat DecimalFacts.

(** ** The rest of the panel: user events and what may be reached *)

(** What a task does before its first await: the state it leaves, and the
    requests it puts in flight with their continuations.  Neither depends
    on the other, since a task does not branch on the state. *)
Fixpoint prefix (t : Task) (st : State) : State :=
  match t with
  | Done => st
  | SetState f k => prefix k (f st)
  | Fetch _ _ => st
  | Call t' k => prefix k (prefix t' st)
  end.

Fixpoint spawned (t : Task) : list Pending :=
  match t with
  | Done => []
  | SetState _ k => spawned k
  | Fetch r k => [mkPending r k]
  | Call t' k => (spawned t' ++ spawned k)%list
  end.

Definition dispatched (t : Task) : list Request := map p_request (spawned t).

Definition postAccept (authToken : option string) (orderId : string) : Request :=
  mkRequest POST (EpAccept orderId) (jsonHeaders authToken) NoBody.

#[global] Instance Handler_eq_dec : EqDecision Handler.
Proof. solve_decision. Defined.

#[global] Instance Q_eq_dec : EqDecision Q.
Proof. solve_decision. Defined.

#[global] Instance OrderShipping_eq_dec : EqDecision OrderShipping.
Proof. solve_decision. Defined.

#[global] Instance TimelineEvent_eq_dec : EqDecision TimelineEvent.
Proof. solve_decision. Defined.

#[global] Instance Order_eq_dec : EqDecision Order.
Proof. solve_decision. Defined.

(** *** The shipping form *)

(** [array.filter((x, i) => p(x, i))], the index counted from [i]. *)
Fixpoint filter_index {A : Type} (p : A -> nat -> bool) (i : nat) (l : list A)
  : list A :=
  match l with
  | [] => []
  | x :: l' =>
      if p x i then x :: filter_index p (S i) l' else filter_index p (S i) l'
  end.

Definition with_courierName (v : string) (f : ShippingFormState) : ShippingFormState :=
  {| courierName := v; trackingNumber := trackingNumber f;
     estimatedDeliveryDate := estimatedDeliveryDate f; notes := notes f;
     proofImages := proofImages f |}.

Definition with_trackingNumber (v : string) (f : ShippingFormState) : ShippingFormState :=
  {| courierName := courierName f; trackingNumber := v;
     estimatedDeliveryDate := estimatedDeliveryDate f; notes := notes f;
     proofImages := proofImages f |}.

Definition with_estimatedDeliveryDate (v : string) (f : ShippingFormState)
  : ShippingFormState :=
  {| courierName := courierName f; trackingNumber := trackingNumber f;
     estimatedDeliveryDate := v; notes := notes f;
     proofImages := proofImages f |}.

Definition with_notes (v : string) (f : ShippingFormState) : ShippingFormState :=
  {| courierName := courierName f; trackingNumber := trackingNumber f;
     estimatedDeliveryDate := estimatedDeliveryDate f; notes := v;
     proofImages := proofImages f |}.

Definition with_proofImages (v : list File) (f : ShippingFormState) : ShippingFormState :=
  {| courierName := courierName f; trackingNumber := trackingNumber f;
     estimatedDeliveryDate := estimatedDeliveryDate f; notes := notes f;
     proofImages := v |}.

(** The file input: [proofImages: [...prev.proofImages, ...files]]. *)
Definition addProofImages (files : list File) (f : ShippingFormState) : ShippingFormState :=
  with_proofImages (proofImages f ++ files)%list f.

(** The remove button of the [idx]-th thumbnail:
    [prev.proofImages.filter((_, i) => i !== idx)]. *)
Definition removeProofImage (idx : nat) (f : ShippingFormState) : ShippingFormState :=
  with_proofImages
    (filter_index (fun _ i => negb (Nat.eqb i idx)) 0 (proofImages f)) f.

(** The edits the shipping modal offers. *)
Inductive ShippingEdit : Type :=
| EditCourierName (v : string)
| EditTrackingNumber (v : string)
| EditEstimatedDeliveryDate (v : string)
| EditNotes (v : string)
| AddFiles (files : list File)
| RemoveFile (idx : nat).

Definition applyShippingEdit (e : ShippingEdit) (f : ShippingFormState)
  : ShippingFormState :=
  match e with
  | EditCourierName v => with_courierName v f
  | EditTrackingNumber v => with_trackingNumber v f
  | EditEstimatedDeliveryDate v => with_estimatedDeliveryDate v f
  | EditNotes v => with_notes v f
  | AddFiles files => addProofImages files f
  | RemoveFile idx => removeProofImage idx f
  end.

Definition setFilterStatus (v : string) (st : State) : State :=
  {| orders := orders st; selectedOrder := selectedOrder st;
     filterStatus := v; searchQuery := searchQuery st;
     sortBy := sortBy st; ui := ui st;
     shippingForm := shippingForm st; messageInput := messageInput st |}.

Definition setSearchQuery (v : string) (st : State) : State :=
  {| orders := orders st; selectedOrder := selectedOrder st;
     filterStatus := filterStatus st; searchQuery := v;
     sortBy := sortBy st; ui := ui st;
     shippingForm := shippingForm st; messageInput := messageInput st |}.

Definition setSortBy (v : string) (st : State) : State :=
  {| orders := orders st; selectedOrder := selectedOrder st;
     filterStatus := filterStatus st; searchQuery := searchQuery st;
     sortBy := v; ui := ui st;
     shippingForm := shippingForm st; messageInput := messageInput st |}.

(** *** The list area *)

(** The three regions under the search bar. *)
Inductive ListRegion : Type :=
| Spinner                                         (* Loading orders... *)
| EmptyState (heading : string) (createButton : bool)
| Rows (rows : list Order).

(** [orders?.length === 0] *)
Definition orders_empty (orders : option (list Order)) : bool :=
  match orders with
  | Some [] => true
  | _ => false
  end.

(** The regions rendered for a state and the list [filteredOrders] gave. *)
Definition listArea (st : State) (filtered : list Order) : list ListRegion :=
  ((if loading (ui st) then [Spinner] else [])
   ++ (if negb (loading (ui st)) && Nat.eqb (length filtered) 0
       then [EmptyState
               (if orders_empty (orders st) then "No orders yet"
                else "No matching orders")
               (orders_empty (orders st))]
       else [])
   ++ (if negb (loading (ui st)) && Nat.ltb 0 (length filtered)
       then [Rows filtered] else []))%list.

(** *** Days left to ship, in the detail view

    [Math.ceil((new Date(deadline).getTime() - new Date().getTime())
    / (1000 * 60 * 60 * 24))]; NaN when the deadline is no date.  The
    quotient is taken exactly: over the dates JavaScript can represent a
    quotient that is no integer stays further from the next integer than
    the rounding of the division can move it. *)
Definition daysRemaining (Date_parse : string -> option Z) (now : Z)
    (deadline : string) : option Z :=
  match Time.sub (Date_parse deadline) (Some now) with
  | Some d => Some (- ((- d) / (1000 * 60 * 60 * 24)))
  | None => None
  end.

Section Events.

Variable authToken : option string.
Variable toLowerCase : string -> string.
Variable Date_parse : string -> option Z.

(** The list a render shows: [filteredOrders] on the array of the [orders]
    cell. *)
Definition renderedOrders (st : State) : list Order :=
  match orders st with
  | Some l =>
      visibleOrders toLowerCase Date_parse (Some 0%nat)
        (filterStatus st) (searchQuery st) (sortBy st) [l]
  | None =>
      visibleOrders toLowerCase Date_parse None
        (filterStatus st) (searchQuery st) (sortBy st) []
  end.

(** What the user and the timers can do to the panel.  A request settling
    is an event too. *)
Inductive Event : Type :=
| EvFetchOrders                  (* the mount effect and every interval tick *)
| EvViewDetails (order : Order)  (* a row, or its View Details button *)
| EvRowMessage (order : Order)   (* the message button of a row *)
| EvClick (h : Handler)          (* a button of the detail view *)
| EvCloseShipping                (* X or Cancel of the shipping modal *)
| EvEditShipping (e : ShippingEdit)
| EvSubmitShipping
| EvCloseMessage                 (* X or Cancel of the message modal *)
| EvSetMessageInput (v : string)
| EvSendMessage
| EvDismissError                 (* the X of the notification, or its timer *)
| EvDismissSuccess
| EvSetSearchQuery (v : string)
| EvSetFilterStatus (v : string)
| EvSetSortBy (v : string)
| EvSettle (i : nat) (srv : Server).

(** A row is on screen. *)
Definition row_shown (st : State) (order : Order) : bool :=
  negb (loading (ui st)) && bool_decide (order ∈ renderedOrders st).

(** The handler of each event, guarded by what makes its control appear. *)
Definition step (ev : Event) (c : Config) : Config :=
  let st := state c in
  match ev with
  | EvFetchOrders => run (fetchOrders authToken) c
  | EvViewDetails order =>
      if row_shown st order
      then run (fetchOrderDetails authToken (id order)) c else c
  | EvRowMessage order =>
      if row_shown st order
      then run (SetState (setSelectedOrder (Some order))
                  (SetState (setUi (with_messageModalOpen true)) Done)) c
      else c
  | EvClick h =>
      match OrderDetailModal (selectedOrder st) with
      | Some buttons =>
          if orderDetailOpen (ui st) && bool_decide (h ∈ buttons)
          then run (onClick authToken h) c else c
      | None => c
      end
  | EvCloseShipping =>
      match selectedOrder st with
      | Some _ =>
          if shippingModalOpen (ui st)
          then run (SetState (setUi (with_shippingModalOpen false)) Done) c else c
      | None => c
      end
  | EvEditShipping e =>
      match selectedOrder st with
      | Some _ =>
          if shippingModalOpen (ui st)
          then run (SetState (fun s => setShippingForm
                                         (applyShippingEdit e (shippingForm s)) s)
                      Done) c
          else c
      | None => c
      end
  | EvSubmitShipping =>
      match selectedOrder st with
      | Some o =>
          if shippingModalOpen (ui st)
          then run (submitShippingInfo authToken (shippingForm st) (id o)) c else c
      | None => c
      end
  | EvCloseMessage =>
      match selectedOrder st with
      | Some _ =>
          if messageModalOpen (ui st)
          then run (SetState (setUi (with_messageModalOpen false)) Done) c else c
      | None => c
      end
  | EvSetMessageInput v =>
      match selectedOrder st with
      | Some _ =>
          if messageModalOpen (ui st)
          then run (SetState (setMessageInput v) Done) c else c
      | None => c
      end
  | EvSendMessage =>
      match selectedOrder st with
      | Some o =>
          if messageModalOpen (ui st)
          then run (sendMessage authToken (messageInput st) (id o)) c else c
      | None => c
      end
  | EvDismissError =>
      if Js.truthy_opt (errorNotification (ui st))
      then run (SetState onErrorTimeout Done) c else c
  | EvDismissSuccess =>
      if Js.truthy_opt (successNotification (ui st))
      then run (SetState onSuccessTimeout Done) c else c
  | EvSetSearchQuery v => run (SetState (setSearchQuery v) Done) c
  | EvSetFilterStatus v => run (SetState (setFilterStatus v) Done) c
  | EvSetSortBy v => run (SetState (setSortBy v) Done) c
  | EvSettle i srv => settle i srv c
  end.

(** The panel as mounted, before its first effect. *)
Definition mounted : Config :=
  {| state := initialState; network := []; inflight := [] |}.

Definition steps (evs : list Event) (c : Config) : Config :=
  foldl (fun c ev => step ev c) c evs.

(** The requests of the table of the HTTP interface. *)
Inductive ApiRequest : Request -> Prop :=
| api_orders : ApiRequest (getOrders authToken)
| api_order (i : string) : ApiRequest (getOrder authToken i)
| api_accept (i : string) : ApiRequest (postAccept authToken i)
| api_reject (i : string) : ApiRequest (postReject authToken i)
| api_shipping (form : ShippingFormState) (i : string) :
    ApiRequest (postShipping authToken form i)
| api_message (input i : string) : ApiRequest (postMessage authToken input i).

(** Why a request is dispatched: [Caused st ev r] lists, for the state [st]
    in which the event [ev] happens, the requests [r] the event may
    dispatch. *)
Inductive Caused (st : State) : Event -> Request -> Prop :=
| caused_refresh : Caused st EvFetchOrders (getOrders authToken)
| caused_view (order : Order) :
    row_shown st order = true ->
    Caused st (EvViewDetails order) (getOrder authToken (id order))
| caused_accept (o : Order) :
    selectedOrder st = Some o ->
    orderDetailOpen (ui st) = true ->
    status o = pending ->
    Caused st (EvClick (ClickAccept (id o))) (postAccept authToken (id o))
| caused_reject (o : Order) :
    selectedOrder st = Some o ->
    orderDetailOpen (ui st) = true ->
    status o = pending ->
    Caused st (EvClick (ClickReject (id o))) (postReject authToken (id o))
| caused_shipping (o : Order) :
    selectedOrder st = Some o ->
    shippingModalOpen (ui st) = true ->
    courierName (shippingForm st) <> "" ->
    trackingNumber (shippingForm st) <> "" ->
    estimatedDeliveryDate (shippingForm st) <> "" ->
    Caused st EvSubmitShipping
      (postShipping authToken (shippingForm st) (id o))
| caused_message (o : Order) :
    selectedOrder st = Some o ->
    messageModalOpen (ui st) = true ->
    Js.trim (messageInput st) <> "" ->
    Caused st EvSendMessage (postMessage authToken (messageInput st) (id o))
| caused_refetch_list (i : nat) (srv : Server) :
    Caused st (EvSettle i srv) (getOrders authToken)
| caused_refetch_detail (i : nat) (srv : Server) (orderId : string) :
    Caused st (EvSettle i srv) (getOrder authToken orderId).

(** The two reads. *)
Inductive ReadRequest : Request -> Prop :=
| read_orders : ReadRequest (getOrders authToken)
| read_order (i : string) : ReadRequest (getOrder authToken i).

End Events.

(** A property of the state that every task keeps, and a property of the
    requests that continuations dispatch: [conts_keep P R t] says so of
    every continuation [t] leaves behind, however its request settles. *)
Fixpoint conts_keep (P : State -> Prop) (R : Request -> Prop) (t : Task) : Prop :=
  match t with
  | Done => True
  | SetState _ k => conts_keep P R k
  | Fetch _ k =>
      forall out,
        (forall st, P st -> P (prefix (k out) st))
        /\ Forall R (dispatched (k out))
        /\ conts_keep P R (k out)
  | Call t' k => conts_keep P R t' /\ conts_keep P R k
  end.

Definition inflight_keep (P : State -> Prop) (R : Request -> Prop) (c : Config) : Prop :=
  Forall (fun p => forall out,
            (forall st, P st -> P (prefix (p_resume p out) st))
            /\ Forall R (dispatched (p_resume p out))
            /\ conts_keep P R (p_resume p out))
    (inflight c).

(** The list is known, or the panel says it is loading. *)
Definition list_known_or_loading (st : State) : Prop :=
  orders st = None -> loading (ui st) = true.

(** The list is known. *)
Definition list_known (st : State) : Prop := orders st <> None.

(** The four requests that change an order, as the panel starts them. *)
Inductive Mutation : Type :=
| MAccept (orderId : string)
| MReject (orderId : string)
| MShipping (form : ShippingFormState) (orderId : string)
| MMessage (input orderId : string).

Definition mutation_task (authToken : option string) (m : Mutation) : Task :=
  match m with
  | MAccept i => acceptOrder authToken i
  | MReject i => rejectOrder authToken i
  | MShipping form i => submitShippingInfo authToken form i
  | MMessage input i => sendMessage authToken input i
  end.

Definition mutation_request (authToken : option string) (m : Mutation) : Request :=
  match m with
  | MAccept i => postAccept authToken i
  | MReject i => postReject authToken i
  | MShipping form i => postShipping authToken form i
  | MMessage input i => postMessage authToken input i
  end.

(** The text of the [Error] each callback throws for a response that is not
    ok; the same text is its fallback in the [catch] block. *)
Definition mutation_failure_text (m : Mutation) : string :=
  match m with
  | MAccept _ => "Failed to accept order"
  | MReject _ => "Failed to reject order"
  | MShipping _ _ => "Failed to submit shipping info"
  | MMessage _ _ => "Failed to send message"
  end.

(** The client-side validation lets the mutation through. *)
Definition mutation_valid (m : Mutation) : bool :=
  match m with
  | MAccept _ | MReject _ => true
  | MShipping form _ =>
      Js.truthy (courierName form) && Js.truthy (trackingNumber form)
      && Js.truthy (estimatedDeliveryDate form)
  | MMessage input _ => Js.truthy (Js.trim input)
  end.

(** A lower-casing of the ASCII letters, for examples. *)
Definition sampleLower (s : string) : string :=
  string_of_list_ascii
    (map (fun c =>
            let n := nat_of_ascii c in
            if Nat.leb 65 n && Nat.leb n 90 then ascii_of_nat (n + 32) else c)
       (list_ascii_of_string s)).

(** ** The dashboard shell (component [SellerDashboard])

    The shell holds the tab selection, two modal flags, the withdrawal
    amount and the payment link form; its orders, transactions, social
    links, wallet and profile are cells without a setter.  [alert] and
    [navigate] are effects: the state keeps a log of each. *)
Module Dashboard.

Inductive OrderStatus : Type := Pending | Shipped | Completed | Dispute.

Record Order : Type := mkOrder {
  id : string;
  buyer : string;
  amount : Q;
  item : string;
  status : OrderStatus;
  timeLeft : string;
  rating : Q;
  reviews : Q
}.

Record SocialLink : Type := mkSocialLink {
  icon : string;
  name : string;
  handle : string;
  followers : string;
  connected : bool
}.

Record WalletData : Type := mkWalletData {
  available : Q;
  pending : Q;
  total : Q
}.

Record PaymentLinkForm : Type := mkPaymentLinkForm {
  itemName : string;
  description : string;
  price : string
}.

Record State : Type := mkState {
  activeTab : string;
  sidebarOpen : bool;
  withdrawalModal : bool;
  shareModal : bool;
  withdrawalAmount : string;
  orders : list Order;
  socialLinks : list SocialLink;
  wallet : WalletData;
  paymentLinkForm : PaymentLinkForm;
  alerts : list string;        (* every [alert], oldest first *)
  navigated : list string      (* every [navigate], oldest first *)
}.

Definition initialState : State :=
  {| activeTab := "home";
     sidebarOpen := true;
     withdrawalModal := false;
     shareModal := false;
     withdrawalAmount := "";
     orders := [];
     socialLinks :=
       [ mkSocialLink "📸" "Instagram" "" "" false
       ; mkSocialLink "💬" "WhatsApp Business" "" "" false
       ; mkSocialLink "👍" "Facebook Marketplace" "" "" false
       ; mkSocialLink "📌" "TikTok Shop" "Coming Soon" "" false ];
     wallet := {| available := 0; pending := 0; total := 0 |};
     paymentLinkForm := {| itemName := ""; description := ""; price := "" |};
     alerts := [];
     navigated := [] |}.

Definition alert (msg : string) (st : State) : State :=
  {| activeTab := activeTab st; sidebarOpen := sidebarOpen st;
     withdrawalModal := withdrawalModal st; shareModal := shareModal st;
     withdrawalAmount := withdrawalAmount st; orders := orders st;
     socialLinks := socialLinks st; wallet := wallet st;
     paymentLinkForm := paymentLinkForm st;
     alerts := (alerts st ++ [msg])%list; navigated := navigated st |}.

Definition navigate (path : string) (st : State) : State :=
  {| activeTab := activeTab st; sidebarOpen := sidebarOpen st;
     withdrawalModal := withdrawalModal st; shareModal := shareModal st;
     withdrawalAmount := withdrawalAmount st; orders := orders st;
     socialLinks := socialLinks st; wallet := wallet st;
     paymentLinkForm := paymentLinkForm st;
     alerts := alerts st; navigated := (navigated st ++ [path])%list |}.

Definition setActiveTab (v : string) (st : State) : State :=
  {| activeTab := v; sidebarOpen := sidebarOpen st;
     withdrawalModal := withdrawalModal st; shareModal := shareModal st;
     withdrawalAmount := withdrawalAmount st; orders := orders st;
     socialLinks := socialLinks st; wallet := wallet st;
     paymentLinkForm := paymentLinkForm st;
     alerts := alerts st; navigated := navigated st |}.

Definition setSidebarOpen (v : bool) (st : State) : State :=
  {| activeTab := activeTab st; sidebarOpen := v;
     withdrawalModal := withdrawalModal st; shareModal := shareModal st;
     withdrawalAmount := withdrawalAmount st; orders := orders st;
     socialLinks := socialLinks st; wallet := wallet st;
     paymentLinkForm := paymentLinkForm st;
     alerts := alerts st; navigated := navigated st |}.

Definition setWithdrawalModal (v : bool) (st : State) : State :=
  {| activeTab := activeTab st; sidebarOpen := sidebarOpen st;
     withdrawalModal := v; shareModal := shareModal st;
     withdrawalAmount := withdrawalAmount st; orders := orders st;
     socialLinks := socialLinks st; wallet := wallet st;
     paymentLinkForm := paymentLinkForm st;
     alerts := alerts st; navigated := navigated st |}.

Definition setShareModal (v : bool) (st : State) : State :=
  {| activeTab := activeTab st; sidebarOpen := sidebarOpen st;
     withdrawalModal := withdrawalModal st; shareModal := v;
     withdrawalAmount := withdrawalAmount st; orders := orders st;
     socialLinks := socialLinks st; wallet := wallet st;
     paymentLinkForm := paymentLinkForm st;
     alerts := alerts st; navigated := navigated st |}.

Definition setWithdrawalAmount (v : string) (st : State) : State :=
  {| activeTab := activeTab st; sidebarOpen := sidebarOpen st;
     withdrawalModal := withdrawalModal st; shareModal := shareModal st;
     withdrawalAmount := v; orders := orders st;
     socialLinks := socialLinks st; wallet := wallet st;
     paymentLinkForm := paymentLinkForm st;
     alerts := alerts st; navigated := navigated st |}.

Definition setPaymentLinkForm (v : PaymentLinkForm) (st : State) : State :=
  {| activeTab := activeTab st; sidebarOpen := sidebarOpen st;
     withdrawalModal := withdrawalModal st; shareModal := shareModal st;
     withdrawalAmount := withdrawalAmount st; orders := orders st;
     socialLinks := socialLinks st; wallet := wallet st;
     paymentLinkForm := v;
     alerts := alerts st; navigated := navigated st |}.

(** The ids of [navItems], in order. *)
Definition navItems : list string :=
  ["home"; "orders"; "wallet"; "disputes"; "social"; "settings"; "support"].

Inductive Panel : Type :=
| HomePanel | OrdersPanel | WalletPanel | DisputesPanel
| SocialPanel | SettingsPanel | SupportPanel.

(** The main content: seven conditionals on [activeTab]. *)
Definition mainContent (activeTab : string) : list Panel :=
  ((if String.eqb activeTab "home" then [HomePanel] else [])
   ++ (if String.eqb activeTab "orders" then [OrdersPanel] else [])
   ++ (if String.eqb activeTab "wallet" then [WalletPanel] else [])
   ++ (if String.eqb activeTab "disputes" then [DisputesPanel] else [])
   ++ (if String.eqb activeTab "social" then [SocialPanel] else [])
   ++ (if String.eqb activeTab "settings" then [SettingsPanel] else [])
   ++ (if String.eqb activeTab "support" then [SupportPanel] else []))%list.

(** [orders.filter(o => o.status === s).length] and the other counts the
    home and wallet tabs show. *)
Definition status_eqb (a b : OrderStatus) : bool :=
  match a, b with
  | Pending, Pending | Shipped, Shipped | Completed, Completed
  | Dispute, Dispute => true
  | _, _ => false
  end.

Definition count (p : Order -> bool) (l : list Order) : nat :=
  length (List.filter p l).

Definition newOrders (l : list Order) : nat :=
  count (fun o => status_eqb (status o) Pending) l.

Definition activeOrders (l : list Order) : nat :=
  count (fun o => status_eqb (status o) Shipped) l.

Definition completedOrders (l : list Order) : nat :=
  count (fun o => status_eqb (status o) Completed) l.

(** Home tab, under Pending Escrow: "orders pending confirmation". *)
Definition pendingConfirmation (l : list Order) : nat :=
  count (fun o => status_eqb (status o) Pending || status_eqb (status o) Shipped) l.

(** Wallet tab, under Pending Escrow: "orders pending". *)
Definition walletPending (l : list Order) : nat :=
  count (fun o => negb (status_eqb (status o) Completed)) l.

(** Comparisons of a converted number; NaN compares false. *)
Definition number_le (n : number) (q : Q) : bool :=
  match n with
  | NaN => false
  | Num v => Qle_bool v q
  end.

Definition number_gt (n : number) (q : Q) : bool :=
  match n with
  | NaN => false
  | Num v => negb (Qle_bool v q)
  end.

Section Handlers.

(** [Number(s)] for the text of the amount input. *)
Variable Number : string -> number.

Definition handleWithdraw (st : State) : State :=
  if negb (Js.truthy (withdrawalAmount st))
     || number_le (Number (withdrawalAmount st)) 0
  then alert "Please enter a valid amount" st
  else if number_gt (Number (withdrawalAmount st)) (available (wallet st))
  then alert "Insufficient funds" st
  else setWithdrawalAmount ""
         (setWithdrawalModal false
            (alert "Withdrawal functionality coming soon!" st)).

Definition handleCreatePaymentLink (st : State) : State :=
  if negb (Js.truthy (itemName (paymentLinkForm st)))
     || negb (Js.truthy (price (paymentLinkForm st)))
  then alert "Please fill in item name and price" st
  else setPaymentLinkForm {| itemName := ""; description := ""; price := "" |}
         (alert "Payment link functionality coming soon!" st).

(** The amount passes the two checks of [handleWithdraw]. *)
Definition withdrawal_passes (st : State) : bool :=
  Js.truthy (withdrawalAmount st)
  && match Number (withdrawalAmount st) with
     | NaN => true
     | Num v => negb (Qle_bool v 0) && Qle_bool v (available (wallet st))
     end.

(** What the user can do to the shell; each control only where it is
    rendered and enabled. *)
Inductive Event : Type :=
| NavClick (item : string)             (* a sidebar entry *)
| ToggleSidebar
| LogoClick                            (* navigate('/') *)
| WithdrawClick                        (* Withdraw (Now), home and wallet tabs *)
| CloseWithdrawal                      (* X or Cancel *)
| TypeWithdrawalAmount (v : string)
| ConfirmWithdrawal
| ShareLinkClick (link : nat)          (* Share Link of a connected link *)
| CloseShare
| EmptyOrdersCreateLink                (* Create Payment Link of the orders tab *)
| EditItemName (v : string)
| EditDescription (v : string)
| EditPrice (v : string)
| GeneratePaymentLink
| LogOut.

Definition step (ev : Event) (st : State) : State :=
  match ev with
  | NavClick item =>
      if bool_decide (item ∈ navItems)
      then setSidebarOpen false (setActiveTab item st) else st
  | ToggleSidebar => setSidebarOpen (negb (sidebarOpen st)) st
  | LogoClick => navigate "/" st
  | WithdrawClick =>
      if (String.eqb (activeTab st) "home" || String.eqb (activeTab st) "wallet")
         && negb (Qle_bool (available (wallet st)) 0)
      then setWithdrawalModal true st else st
  | CloseWithdrawal =>
      if withdrawalModal st then setWithdrawalModal false st else st
  | TypeWithdrawalAmount v =>
      if withdrawalModal st then setWithdrawalAmount v st else st
  | ConfirmWithdrawal =>
      if withdrawalModal st then handleWithdraw st else st
  | ShareLinkClick link =>
      match socialLinks st !! link with
      | Some social =>
          if String.eqb (activeTab st) "social" && connected social
          then setShareModal true st else st
      | None => st
      end
  | CloseShare => if shareModal st then setShareModal false st else st
  | EmptyOrdersCreateLink =>
      if String.eqb (activeTab st) "orders" && Nat.eqb (length (orders st)) 0
      then setActiveTab "social" st else st
  | EditItemName v =>
      if String.eqb (activeTab st) "social"
      then setPaymentLinkForm
             {| itemName := v; description := description (paymentLinkForm st);
                price := price (paymentLinkForm st) |} st
      else st
  | EditDescription v =>
      if String.eqb (activeTab st) "social"
      then setPaymentLinkForm
             {| itemName := itemName (paymentLinkForm st); description := v;
                price := price (paymentLinkForm st) |} st
      else st
  | EditPrice v =>
      if String.eqb (activeTab st) "social"
      then setPaymentLinkForm
             {| itemName := itemName (paymentLinkForm st);
                description := description (paymentLinkForm st);
                price := v |} st
      else st
  | GeneratePaymentLink =>
      if String.eqb (activeTab st) "social" then handleCreatePaymentLink st else st
  | LogOut =>
      if String.eqb (activeTab st) "settings" then navigate "/" st else st
  end.

Definition steps (evs : list Event) (st : State) : State :=
  foldl (fun st ev => step ev st) st evs.

(** What holds of the shell however it is used. *)
Record Invariant (st : State) : Prop := mkInvariant {
  inv_withdrawal_closed : withdrawalModal st = false;
  inv_share_closed : shareModal st = false;
  inv_tab : activeTab st ∈ navItems;
  inv_wallet : wallet st = wallet initialState;
  inv_links : socialLinks st = socialLinks initialState;
  inv_orders : orders st = [];
  inv_alerts :
    Forall (fun a => a = "Please fill in item name and price"
                     \/ a = "Payment link functionality coming soon!")
      (alerts st)
}.

End Handlers.

End Dashboard.

(** * Properties *)

(** ** Presentation helpers *)

Lemma rev_string_involutive (s : string) : Js.rev_string (Js.rev_string s) = s.
Proof.
  unfold Js.rev_string.
  rewrite list_ascii_of_string_of_list_ascii, rev_involutive.
  apply string_of_list_ascii_of_string.
Qed.

Lemma ungroup_rev_string (s : string) :
  ungroup (Js.rev_string s) = Js.rev_string (ungroup s).
Proof.
  unfold ungroup, Js.rev_string.
  rewrite !list_ascii_of_string_of_list_ascii.
  now rewrite filter_rev.
Qed.

Lemma filter_group3 (n : nat) (ds : list ascii) :
  List.filter (fun c => negb (Ascii.eqb c ","%char)) (Js.group3 n ds)
  = List.filter (fun c => negb (Ascii.eqb c ","%char)) ds.
Proof.
  revert n. induction ds as [|d ds IH]; intros n; [reflexivity|].
  destruct n as [|[|[|[|n]]]]; cbn [Js.group3 List.filter];
    rewrite ?IH; reflexivity.
Qed.

Lemma ungroup_group_thousands (s : string) :
  ungroup (Js.group_thousands s) = ungroup s.
Proof.
  unfold Js.group_thousands.
  rewrite ungroup_rev_string.
  unfold ungroup at 1.
  rewrite list_ascii_of_string_of_list_ascii, filter_group3.
  rewrite filter_rev.
  unfold Js.rev_string.
  rewrite list_ascii_of_string_of_list_ascii, rev_involutive.
  reflexivity.
Qed.

Lemma ungroup_digits (d : Decimal.uint) :
  ungroup (NilEmpty.string_of_uint d) = NilEmpty.string_of_uint d.
Proof.
  unfold ungroup.
  induction d; cbn [NilEmpty.string_of_uint list_ascii_of_string];
    try reflexivity;
    cbn [List.filter Ascii.eqb Bool.eqb negb string_of_list_ascii];
    cbn; now rewrite IHd.
Qed.

Lemma ungroup_string_of_Z (z : Z) :
  0 <= z -> ungroup (Js.string_of_Z z) = Js.string_of_Z z.
Proof.
  intros Hz. unfold Js.string_of_Z.
  destruct z as [|p|p]; [reflexivity| |lia].
  cbn [Z.to_int NilZero.string_of_int NilZero.string_of_uint].
  destruct (Pos.to_uint p); try apply ungroup_digits. reflexivity.
Qed.

Lemma round_half_expand_nonneg (q : Q) :
  (0 < q)%Q -> 0 <= Js.round_half_expand q.
Proof.
  intros Hq. unfold Js.round_half_expand.
  assert (Hle : (0 <= q)%Q) by now apply Qlt_le_weak.
  apply Qle_bool_iff in Hle. rewrite Hle.
  change 0 with (Qfloor 0).
  apply Qfloor_resp_le.
  apply Qle_trans with q; [now apply Qlt_le_weak|].
  rewrite <- (Qplus_0_r q) at 1.
  apply Qplus_le_r. discriminate.
Qed.

Example group_thousands_samples :
  map Js.group_thousands ["7"; "999"; "1000"; "12345"; "123456"; "1234567890"]
  = ["7"; "999"; "1,000"; "12,345"; "123,456"; "1,234,567,890"].
Proof. reflexivity. Qed.

Example trim_samples :
  map Js.trim ["";  "   "; Js.bytes [9; 10; 13; 32]; "  hi  there "; Js.bytes [194; 160; 104; 105; 226; 128; 169]]
  = [""; ""; ""; "hi  there"; "hi"].
Proof. reflexivity. Qed.



Section LocaleProperties.

Variable Date_parse : string -> option Z.
Variable localeDate_enKE : Z -> string.

#[local] Abbreviation fmt := (formatTime Date_parse localeDate_enKE).

(** The cascade of [formatTime] on a date that parses, by the number of
    whole seconds elapsed. *)
Lemma formatTime_elapsed (t secs ms : Z) (s : string) :
  Js.truthy s = true ->
  Date_parse s = Some t ->
  0 <= ms < 1000 ->
  fmt (t + secs * 1000 + ms) s
  = if secs <? 60 then "just now"
    else if secs / 60 <? 60 then Js.string_of_Z (secs / 60) ++ "m ago"
    else if secs / 60 / 60 <? 24 then Js.string_of_Z (secs / 60 / 60) ++ "h ago"
    else if secs / 60 / 60 / 24 =? 1 then "yesterday"
    else if secs / 60 / 60 / 24 <? 7
         then Js.string_of_Z (secs / 60 / 60 / 24) ++ "d ago"
    else localeDate_enKE t.
Proof.
  intros Hs Hp Hms. unfold formatTime.
  rewrite Hs, Hp. cbn [negb Time.sub Time.floor_div Time.lt Time.strict_eq
                        Time.to_string toLocaleDateString].
  replace ((t + secs * 1000 + ms - t) / 1000) with secs; [reflexivity|].
  apply (Z.div_unique _ _ secs ms); lia.
Qed.

(** C5. With a time stamp that parses, [formatTime] gives ["just now"]
    59 seconds later, ["1m ago"] after 60 seconds, ["59m ago"] after 3599,
    ["1h ago"] after 3600, ["yesterday"] after 86400, ["6d ago"] after six
    days and the locale's date after seven days (the same for every
    fraction [ms] of a second on top). *)
Theorem formatTime_boundaries (t ms : Z) (s : string) :
  Js.truthy s = true ->
  Date_parse s = Some t ->
  0 <= ms < 1000 ->
  fmt (t + 59 * 1000 + ms) s = "just now"
  /\ fmt (t + 60 * 1000 + ms) s = "1m ago"
  /\ fmt (t + 3599 * 1000 + ms) s = "59m ago"
  /\ fmt (t + 3600 * 1000 + ms) s = "1h ago"
  /\ fmt (t + 86400 * 1000 + ms) s = "yesterday"
  /\ fmt (t + (6 * 86400) * 1000 + ms) s = "6d ago"
  /\ fmt (t + (7 * 86400) * 1000 + ms) s = localeDate_enKE t.
Proof.
  intros Hs Hp Hms.
  repeat match goal with |- _ /\ _ => split end;
    rewrite (formatTime_elapsed _ _ _ _ Hs Hp Hms); reflexivity.
Qed.

Lemma formatTime_total (now : Z) (s : string) : RelativeTime localeDate_enKE (fmt now s).
Proof.
  unfold formatTime.
  destruct (negb (Js.truthy s)); [constructor|].
  repeat match goal with
         | |- RelativeTime _ (if ?b then _ else _) => destruct b
         end; constructor.
Qed.

(** C10. [formatTime] has a value for every string: one of the relative
    forms or a locale date, never anything else.  For the empty string it
    is ["unknown"], whatever the clock says; hence the detail view of an
    order with a buyer message and no [messageCreatedAt] shows
    ["unknown"] under the message. *)
Theorem formatTime_missing_timestamp (now : Z) (s : string) (o : Order) :
  messageCreatedAt o = None ->
  Js.truthy_opt (buyerMessage o) = true ->
  RelativeTime localeDate_enKE (fmt now s)
  /\ fmt now "" = "unknown"
  /\ buyerMessageTime Date_parse localeDate_enKE now o = Some "unknown".
Proof.
  intros Hm Hb. split; [apply formatTime_total|]. split; [reflexivity|].
  unfold buyerMessageTime. now rewrite Hb, Hm.
Qed.

End LocaleProperties.

Lemma formatTime_boundaries_witness :
  let parse := fun _ : string => Some 1700000000000 in
  let locale := fun _ : Z => "14/11/2023" in
  formatTime parse locale (1700000000000 + 59 * 1000 + 999) "2023-11-14T22:13:20Z"
  = "just now"
  /\ formatTime parse locale (1700000000000 + 60 * 1000 + 999) "2023-11-14T22:13:20Z"
     = "1m ago".
Proof.
  intros parse locale.
  destruct (formatTime_boundaries parse locale 1700000000000 999
              "2023-11-14T22:13:20Z") as (H59 & H60 & _);
    [reflexivity | reflexivity | lia | ].
  split; [exact H59 | exact H60].
Defined.

Lemma formatTime_missing_timestamp_witness :
  buyerMessageTime (fun _ => None) (fun _ => "") 0 sampleOrder = Some "unknown".
Proof.
  apply (formatTime_missing_timestamp (fun _ => None) (fun _ => "") 0 ""
           sampleOrder);
    reflexivity.
Defined.

(** ** The detail view *)

(** C1. The lifecycle actions the detail view offers are a function of the
    status of the order shown: Reject and Accept, and nothing else, for
    [pending]; Add Shipping Info alone for [accepted]; Update Proof alone
    for [shipped]; none for [completed], [dispute] and [cancelled]. *)
Theorem offeredActions_by_status (o : Order) :
  offeredActions (Some o)
  = match status o with
    | pending => [Reject; Accept]
    | accepted => [AddShippingInfo]
    | shipped => [UpdateProof]
    | completed_ | dispute | cancelled => []
    end.
Proof.
  unfold offeredActions, OrderDetailModal, footerActions.
  destruct (status o); reflexivity.
Qed.

(** ** Client-side validation *)

Section PanelProperties.

Variable authToken : option string.

Lemma truthy_false (s : string) : Js.truthy s = false <-> s = "".
Proof. destruct s; cbn; split; congruence. Qed.

Lemma truthy_true (s : string) : Js.truthy s = true <-> s <> "".
Proof. destruct s; cbn; split; congruence. Qed.

(** C2. [submitShippingInfo] dispatches nothing and sets the error
    notification when the courier name, the tracking number or the
    delivery date is empty; with the three present it dispatches the POST
    with the whole form, whatever the notes and the proof images are, and
    changes nothing else until the request settles. *)
Theorem submitShippingInfo_validation
    (form : ShippingFormState) (orderId : string) (st : State) :
  let c := start (submitShippingInfo authToken form orderId) st in
  (courierName form = "" \/ trackingNumber form = ""
   \/ estimatedDeliveryDate form = "" ->
   network c = [] /\ inflight c = []
   /\ state c = setError "Please fill in all required fields" st
   /\ errorNotification (ui (state c))
      = Some "Please fill in all required fields")
  /\ (courierName form <> "" /\ trackingNumber form <> ""
      /\ estimatedDeliveryDate form <> "" ->
      network c = [postShipping authToken form orderId]
      /\ length (inflight c) = 1%nat
      /\ state c = st).
Proof.
  intros c. subst c. unfold start, submitShippingInfo. split.
  - intros Hmissing.
    assert (Hb : negb (Js.truthy (courierName form))
                 || negb (Js.truthy (trackingNumber form))
                 || negb (Js.truthy (estimatedDeliveryDate form)) = true).
    { destruct Hmissing as [H | [H | H]]; rewrite H; cbn;
        rewrite ?orb_true_r; reflexivity. }
    rewrite Hb. cbn. auto.
  - intros (Hc & Ht & Hd).
    apply truthy_true in Hc, Ht, Hd. rewrite Hc, Ht, Hd. cbn. auto.
Qed.

(** C3. [sendMessage] dispatches nothing and sets the error notification
    when the input is empty once trimmed; otherwise it dispatches the
    POST carrying the input as typed. *)
Theorem sendMessage_validation (input orderId : string) (st : State) :
  let c := start (sendMessage authToken input orderId) st in
  (Js.trim input = "" ->
   network c = [] /\ inflight c = []
   /\ state c = setError "Message cannot be empty" st
   /\ errorNotification (ui (state c)) = Some "Message cannot be empty")
  /\ (Js.trim input <> "" ->
      network c = [postMessage authToken input orderId]
      /\ length (inflight c) = 1%nat
      /\ state c = st).
Proof.
  intros c. subst c. unfold start, sendMessage. split.
  - intros H. rewrite H. cbn. auto.
  - intros H. apply truthy_true in H. rewrite H. cbn. auto.
Qed.

End PanelProperties.

Lemma submitShippingInfo_validation_witness :
  let filled := {| courierName := "dhl"; trackingNumber := "KN2025-891234";
                   estimatedDeliveryDate := "2025-03-01"; notes := "";
                   proofImages := [] |} in
  network (start (submitShippingInfo (Some "tok") emptyShippingForm "ORD-1")
             initialState) = []
  /\ network (start (submitShippingInfo (Some "tok") filled "ORD-1") initialState)
     = [postShipping (Some "tok") filled "ORD-1"].
Proof.
  intros filled. split.
  - apply (submitShippingInfo_validation (Some "tok") emptyShippingForm "ORD-1"
             initialState).
    left. reflexivity.
  - apply (submitShippingInfo_validation (Some "tok") filled "ORD-1" initialState).
    repeat split; discriminate.
Defined.

Lemma sendMessage_validation_witness :
  network (start (sendMessage None "   " "ORD-1") initialState) = []
  /\ network (start (sendMessage None " hello " "ORD-1") initialState)
     = [postMessage None " hello " "ORD-1"].
Proof.
  split.
  - apply (sendMessage_validation None "   " "ORD-1" initialState).
    reflexivity.
  - apply (sendMessage_validation None " hello " "ORD-1" initialState).
    vm_compute. discriminate.
Defined.

(** ** Fetch failures and the reject action *)

Section FetchProperties.

Variable authToken : option string.

Lemma or_else_truthy (m : option string) (d : string) :
  Js.truthy d = true -> Js.truthy (Js.or_else m d) = true.
Proof.
  intros Hd. destruct m as [s|]; cbn; [|exact Hd].
  destruct (Js.truthy s) eqn:E; [exact E | exact Hd].
Qed.

(** The state after [fetchOrders] was started in [st] and its request
    settled with a failure whose message is [m]. *)
Lemma fetchOrders_failure (srv : Server) (st : State) (m : option string) :
  thrown "Failed to fetch orders" true (srv (getOrders authToken)) = Some m ->
  state (settle 0 srv (start (fetchOrders authToken) st))
  = setUi (with_loading false)
      (setOrders (Some [])
         (setError (Js.or_else m "Failed to load orders. Please try again.")
            (setUi (fun prev => with_errorNotification None (with_loading true prev))
               st))).
Proof.
  unfold getOrders, settle, start, fetchOrders. cbn -[jsonHeaders].
  destruct (srv _) as [msg | [|] [msg | data]]; cbn -[jsonHeaders];
    intros H; inversion H; subst; reflexivity.
Qed.

Lemma fetchOrderDetails_failure (srv : Server) (st : State) (orderId : string)
    (m : option string) :
  thrown "Failed to fetch order details" true (srv (getOrder authToken orderId))
  = Some m ->
  state (settle 0 srv (start (fetchOrderDetails authToken orderId) st))
  = setError "Failed to load order details" st.
Proof.
  unfold getOrder, settle, start, fetchOrderDetails. cbn -[jsonHeaders].
  destruct (srv _) as [msg | [|] [msg | data]]; cbn -[jsonHeaders];
    intros H; inversion H; subst; reflexivity.
Qed.

(** C4, as the code has it.  A failed fetch of the order list makes the
    failure's message, or else the fallback text, the error notification,
    empties the order list and ends the loading state.  A failed fetch of
    an order's detail sets the fixed text ['Failed to load order details']
    as error notification and leaves the order list, the selected order
    and the rest of the panel as they were.  In both cases the
    notification is non-empty, so its five-second dismiss timer is armed. *)
Theorem fetch_failure_handling (srv : Server) (st : State) (orderId : string)
    (m m' : option string) :
  thrown "Failed to fetch orders" true (srv (getOrders authToken)) = Some m ->
  thrown "Failed to fetch order details" true (srv (getOrder authToken orderId))
  = Some m' ->
  let c := settle 0 srv (start (fetchOrders authToken) st) in
  let d := settle 0 srv (start (fetchOrderDetails authToken orderId) st) in
  (failure_contract "Failed to load orders. Please try again." m (state c)
   /\ errorTimer (ui (state c)) = Some 5000
   /\ loading (ui (state c)) = false)
  /\ (state d = setError "Failed to load order details" st
      /\ errorNotification (ui (state d)) = Some "Failed to load order details"
      /\ errorTimer (ui (state d)) = Some 5000
      /\ orders (state d) = orders st
      /\ selectedOrder (state d) = selectedOrder st).
Proof.
  intros Hlist Hdetail c d. subst c d.
  rewrite (fetchOrders_failure _ _ _ Hlist).
  rewrite (fetchOrderDetails_failure _ _ _ _ Hdetail).
  split; [split; [split|split] | ]; try reflexivity.
  - unfold errorTimer. cbn.
    now rewrite or_else_truthy.
  - repeat split.
Qed.

(** The panel once the reject request has succeeded: the notification is
    set, the detail view closed, and [fetchOrders] has been called. *)
Lemma rejectOrder_settled (srv : Server) (orderId : string) (st : State)
    (json : JsonResult unit) :
  srv (postReject authToken orderId) = Response true json ->
  settle 0 srv (start (rejectOrder authToken orderId) st)
  = run (fetchOrders authToken)
      {| state := setUi (fun prev =>
                           with_orderDetailOpen false
                             (with_successNotification (Some "Order rejected") prev))
                    st;
         network := [postReject authToken orderId];
         inflight := [] |}.
Proof.
  unfold postReject. intros Hok.
  unfold settle, start, rejectOrder. cbn -[jsonHeaders fetchOrders].
  rewrite Hok. reflexivity.
Qed.

(** C9. When the reject request succeeds the panel closes the detail view,
    sets the success notification and fetches the order list again: the
    only requests it ever dispatches are the POST and the GET of the
    list, never the GET of the order's detail.  It writes neither the
    selected order nor the order list itself; the list changes only when
    the list fetch settles, to what the server sent (or to the empty list
    if that fetch fails). *)
Theorem rejectOrder_success (srv srv' : Server) (orderId : string) (st : State)
    (json : JsonResult unit) :
  srv (postReject authToken orderId) = Response true json ->
  let c0 := start (rejectOrder authToken orderId) st in
  let c1 := settle 0 srv c0 in
  let c2 := settle 0 srv' c1 in
  network c0 = [postReject authToken orderId]
  /\ (orderDetailOpen (ui (state c1)) = false
      /\ successNotification (ui (state c1)) = Some "Order rejected"
      /\ network c1 = [postReject authToken orderId; getOrders authToken]
      /\ selectedOrder (state c1) = selectedOrder st
      /\ orders (state c1) = orders st)
  /\ (network c2 = network c1
      /\ inflight c2 = []
      /\ forallb (fun r => negb (is_detail_request r)) (network c2) = true
      /\ orderDetailOpen (ui (state c2)) = false
      /\ successNotification (ui (state c2)) = Some "Order rejected"
      /\ selectedOrder (state c2) = selectedOrder st
      /\ orders (state c2) = Some (fetched_orders (srv' (getOrders authToken)))).
Proof.
  intros Hok c0 c1 c2. subst c0 c1 c2.
  rewrite (rejectOrder_settled _ _ _ _ Hok).
  split; [reflexivity|]. split; [repeat split|].
  unfold settle, fetchOrders, getOrders. cbn -[jsonHeaders].
  destruct (srv' _) as [msg | [|] [msg | data]]; cbn -[jsonHeaders];
    repeat split.
Qed.

End FetchProperties.

Lemma fetch_failure_handling_witness :
  let srv : Server := fun _ => Rejected (Some "Network down") in
  let c := settle 0 srv (start (fetchOrders None) initialState) in
  errorNotification (ui (state c)) = Some "Network down"
  /\ orders (state c) = Some [].
Proof.
  intros srv c.
  apply (fetch_failure_handling None srv initialState "ORD-1"
           (Some "Network down") (Some "Network down"));
    reflexivity.
Defined.

(** C4 as the spec words it fails for the detail fetch: with one order
    listed and a detail request that fails with the message
    ["Network down"], the notification is not that message and the order
    list is not emptied. *)
Lemma fetchOrderDetails_failure_counterexample :
  let st := setOrders (Some [sampleOrder]) initialState in
  let srv : Server := fun _ => Rejected (Some "Network down") in
  let d := settle 0 srv (start (fetchOrderDetails None "ORD-1") st) in
  thrown "Failed to fetch order details" true (srv (getOrder None "ORD-1"))
  = Some (Some "Network down")
  /\ errorNotification (ui (state d)) = Some "Failed to load order details"
  /\ orders (state d) = Some [sampleOrder]
  /\ ~ (exists fallback, failure_contract fallback (Some "Network down") (state d)).
Proof.
  intros st srv d. split; [reflexivity|]. split; [reflexivity|].
  split; [reflexivity|].
  intros [fallback [Hnote Horders]]. discriminate Horders.
Qed.

Lemma rejectOrder_success_witness :
  let srv : Server := fun _ => Response true (JsonData None) in
  let st := setSelectedOrder (Some sampleOrder)
              (setOrders (Some [sampleOrder]) initialState) in
  let c1 := settle 0 srv (start (rejectOrder None "ORD-1") st) in
  orderDetailOpen (ui (state c1)) = false
  /\ successNotification (ui (state c1)) = Some "Order rejected"
  /\ network c1 = [postReject None "ORD-1"; getOrders None]
  /\ selectedOrder (state c1) = Some sampleOrder
  /\ orders (state c1) = Some [sampleOrder].
Proof.
  intros srv st c1.
  apply (rejectOrder_success None srv srv "ORD-1" st (JsonData None)).
  reflexivity.
Defined.

(** ** The list view *)

Module HeapFacts.
Import Heap.

Lemma deref_new (a : list Order) (h : Store) :
  deref (h ++ [a])%list (length h) = a.
Proof. unfold deref. now rewrite list_lookup_middle. Qed.

Lemma lookup_old (a : list Order) (h : Store) (i : nat) :
  (i < length h)%nat -> (h ++ [a])%list !! i = h !! i.
Proof. intros Hi. now apply lookup_app_l. Qed.

Lemma deref_old (a : list Order) (h : Store) (i : nat) :
  (i < length h)%nat -> deref (h ++ [a])%list i = deref h i.
Proof. intros Hi. unfold deref. now rewrite lookup_old. Qed.

Lemma filter_insert (E : Order -> bool) (cmp : Order -> Order -> number)
    (x : Order) (l : list Order) :
  (forall y, E x = true -> E y = true -> after cmp x y = false) ->
  List.filter E (insert cmp x l) = List.filter E (x :: l).
Proof.
  intros HE. induction l as [|y l IH]; [reflexivity|].
  cbn [insert]. destruct (after cmp x y) eqn:Hxy; [|reflexivity].
  cbn [List.filter] in *. rewrite IH.
  pose proof (HE y) as Hy.
  destruct (E x), (E y); try reflexivity.
  rewrite Hy in Hxy by reflexivity. discriminate.
Qed.

(** Stability: the orders of one class of equally ranked orders come out
    of the sort in the order they went in. *)
Lemma filter_sort_by (E : Order -> bool) (cmp : Order -> Order -> number)
    (l : list Order) :
  (forall x y, E x = true -> E y = true -> after cmp x y = false) ->
  List.filter E (sort_by cmp l) = List.filter E l.
Proof.
  intros HE. induction l as [|x l IH]; [reflexivity|].
  cbn [sort_by foldr]. fold (sort_by cmp l).
  rewrite filter_insert by (intros y; apply HE).
  cbn [List.filter]. now rewrite IH.
Qed.

Lemma insert_perm (cmp : Order -> Order -> number) (x : Order) (l : list Order) :
  Permutation (insert cmp x l) (x :: l).
Proof.
  induction l as [|y l IH]; [reflexivity|].
  cbn [insert]. destruct (after cmp x y); [|reflexivity].
  rewrite IH. apply perm_swap.
Qed.

(** The sort rearranges; it neither drops nor adds an order. *)
Lemma sort_by_perm (cmp : Order -> Order -> number) (l : list Order) :
  Permutation (sort_by cmp l) l.
Proof.
  induction l as [|x l IH]; [reflexivity|].
  cbn [sort_by foldr]. fold (sort_by cmp l).
  rewrite insert_perm. now rewrite IH.
Qed.

(** A comparator that answers zero leaves the array as it is. *)
Lemma sort_by_all_equal (cmp : Order -> Order -> number) (l : list Order) :
  (forall x y, after cmp x y = false) -> sort_by cmp l = l.
Proof.
  intros H. induction l as [|x l IH]; [reflexivity|].
  cbn [sort_by foldr]. fold (sort_by cmp l). rewrite IH.
  destruct l as [|y l]; [reflexivity|]. cbn [insert]. now rewrite H.
Qed.

(** The sort orders: if, on the orders of [l], the comparator ranks as
    the relation [R] does, the result is sorted by [R]. *)
Lemma insert_sorted (R : Order -> Order -> Prop) (P : Order -> Prop)
    (cmp : Order -> Order -> number) (x : Order) (l : list Order) :
  (forall a b, P a -> P b -> after cmp a b = true -> R b a) ->
  (forall a b, P a -> P b -> after cmp a b = false -> R a b) ->
  (forall a b c, R a b -> R b c -> R a c) ->
  P x -> Forall P l ->
  StronglySorted R l -> StronglySorted R (insert cmp x l).
Proof.
  intros Hgt Hle Htrans Px Pl Hs.
  induction Hs as [|y l Hs IH Hy]; cbn [insert].
  - constructor; constructor.
  - inversion Pl as [|? ? Py Pl']; subst.
    destruct (after cmp x y) eqn:Hxy.
    + constructor; [now apply IH|].
      apply (Permutation_Forall (symmetry (insert_perm cmp x l))).
      constructor; [now apply (Hgt x y)|exact Hy].
    + constructor; [now constructor|].
      assert (Rxy : R x y) by now apply Hle.
      constructor; [exact Rxy|].
      eapply Forall_impl; [exact Hy|].
      intros z Hz. now apply (Htrans x y z).
Qed.

Lemma sort_by_sorted (R : Order -> Order -> Prop) (P : Order -> Prop)
    (cmp : Order -> Order -> number) (l : list Order) :
  (forall a b, P a -> P b -> after cmp a b = true -> R b a) ->
  (forall a b, P a -> P b -> after cmp a b = false -> R a b) ->
  (forall a b c, R a b -> R b c -> R a c) ->
  Forall P l ->
  StronglySorted R (sort_by cmp l).
Proof.
  intros Hgt Hle Htrans Pl.
  induction l as [|x l IH]; [constructor|].
  inversion Pl as [|? ? Px Pl']; subst.
  cbn [sort_by foldr]. fold (sort_by cmp l).
  apply (insert_sorted R P); auto.
  apply (Permutation_Forall (symmetry (sort_by_perm cmp l))). exact Pl'.
Qed.

End HeapFacts.

Section ListViewProperties.

Variable toLowerCase : string -> string.
Variable Date_parse : string -> option Z.

#[local] Abbreviation callback := (filterCallback toLowerCase).
#[local] Abbreviation compare := (compareFn Date_parse).
#[local] Abbreviation pipeline := (filteredOrders toLowerCase Date_parse).

(** What one evaluation of [filteredOrders] does to the store: it adds one
    array, the sorted selection, and returns its reference. *)
Lemma filteredOrders_eval (r : nat) (fs q sb : string) (h : Heap.Store) :
  pipeline (Some r) fs q sb h
  = (length h,
     (h ++ [Heap.sort_by (compare sb) (List.filter (callback fs q) (Heap.deref h r))])%list).
Proof.
  unfold filteredOrders, Heap.Array_filter, Heap.alloc, Heap.Array_sort.
  f_equal.
  rewrite HeapFacts.deref_new.
  rewrite insert_app_r_alt by lia.
  now rewrite Nat.sub_diag.
Qed.

Lemma matchesFilter_all (o : Order) : matchesFilter "all" o = true.
Proof. reflexivity. Qed.

Lemma matchesSearch_empty (o : Order) : matchesSearch toLowerCase "" o = true.
Proof. reflexivity. Qed.

Lemma filter_ext_bool (f g : Order -> bool) (l : list Order) :
  (forall o, f o = g o) -> List.filter f l = List.filter g l.
Proof.
  intros H. induction l as [|x l IH]; [reflexivity|].
  cbn. now rewrite H, IH.
Qed.

Lemma filter_all_true (f : Order -> bool) (l : list Order) :
  (forall o, f o = true) -> List.filter f l = l.
Proof.
  intros H. induction l as [|x l IH]; [reflexivity|].
  cbn. now rewrite H, IH.
Qed.

(** C6. With the status filter [all] the filter callback keeps exactly
    the orders the search keeps; with an empty query it keeps exactly the
    orders of the chosen status; with both it keeps the whole list, in
    order.  (The list shown is then that selection, sorted.) *)
Theorem filter_identities (fs q sb : string) (l : list Order)
    (r : nat) (h : Heap.Store) :
  List.filter (callback "all" q) l = List.filter (matchesSearch toLowerCase q) l
  /\ List.filter (callback fs "") l = List.filter (matchesFilter fs) l
  /\ List.filter (callback "all" "") l = l
  /\ visibleOrders toLowerCase Date_parse (Some r) "all" "" sb h
     = Heap.sort_by (compare sb) (Heap.deref h r).
Proof.
  split; [|split; [|split]].
  - apply filter_ext_bool. intros o. reflexivity.
  - apply filter_ext_bool. intros o. unfold filterCallback.
    rewrite matchesSearch_empty. apply andb_true_r.
  - apply filter_all_true. intros o. reflexivity.
  - unfold visibleOrders. rewrite filteredOrders_eval.
    rewrite HeapFacts.deref_new. f_equal.
    apply filter_all_true. intros o. reflexivity.
Qed.

(** On orders whose dates parse where dates are compared, the comparator
    puts [x] after [y] exactly when [x] has the greater rank. *)
Lemma after_rank (sb : string) (x y : Order) :
  consistent_keys Date_parse sb [x; y] ->
  Heap.after (compare sb) x y = true
  <-> (rank Date_parse sb y < rank Date_parse sb x)%Q.
Proof.
  unfold consistent_keys, Heap.after, compareFn, rank, time_diff.
  intros Hc.
  destruct (String.eqb sb "newest") eqn:E1.
  { apply String.eqb_eq in E1.
    specialize (Hc (or_introl E1)).
    inversion Hc as [|? ? Hx Hc']; subst. inversion Hc' as [|? ? Hy _]; subst.
    destruct (Date_parse (createdAt x)) as [tx|]; [|congruence].
    destruct (Date_parse (createdAt y)) as [ty|]; [|congruence].
    cbn [Time.sub default from_option Datatypes.id].
    rewrite negb_true_iff, <- not_true_iff_false, Qle_bool_iff.
    change 0%Q with (inject_Z 0). rewrite <- Zle_Qle, <- Zlt_Qlt. lia. }
  destruct (String.eqb sb "oldest") eqn:E2.
  { apply String.eqb_eq in E2.
    specialize (Hc (or_intror E2)).
    inversion Hc as [|? ? Hx Hc']; subst. inversion Hc' as [|? ? Hy _]; subst.
    destruct (Date_parse (createdAt x)) as [tx|]; [|congruence].
    destruct (Date_parse (createdAt y)) as [ty|]; [|congruence].
    cbn [Time.sub default from_option Datatypes.id].
    rewrite negb_true_iff, <- not_true_iff_false, Qle_bool_iff.
    change 0%Q with (inject_Z 0). rewrite <- Zle_Qle, <- Zlt_Qlt. lia. }
  destruct (String.eqb sb "amount-high") eqn:E3.
  { rewrite negb_true_iff, <- not_true_iff_false, Qle_bool_iff.
    split; intros H; lra. }
  destruct (String.eqb sb "amount-low") eqn:E4.
  { rewrite negb_true_iff, <- not_true_iff_false, Qle_bool_iff.
    split; intros H; lra. }
  cbn. split; [discriminate | intros H; lra].
Qed.

Lemma consistent_keys_Forall (sb : string) (l : list Order) :
  consistent_keys Date_parse sb l ->
  Forall (fun o => consistent_keys Date_parse sb [o]) l.
Proof.
  unfold consistent_keys. intros H.
  apply Forall_forall. intros o Ho Hsb.
  constructor; [|constructor].
  specialize (H Hsb). rewrite Forall_forall in H. now apply H.
Qed.

Lemma consistent_keys_pair (sb : string) (a b : Order) :
  consistent_keys Date_parse sb [a] ->
  consistent_keys Date_parse sb [b] ->
  consistent_keys Date_parse sb [a; b].
Proof.
  unfold consistent_keys. intros Ha Hb Hsb.
  specialize (Ha Hsb). specialize (Hb Hsb).
  inversion Ha; inversion Hb; subst. now repeat constructor.
Qed.

Lemma consistent_keys_filter (sb : string) (f : Order -> bool) (l : list Order) :
  consistent_keys Date_parse sb l ->
  consistent_keys Date_parse sb (List.filter f l).
Proof.
  unfold consistent_keys. intros H Hsb. specialize (H Hsb).
  rewrite List.Forall_forall in *. intros o Ho.
  apply H. apply List.filter_In in Ho. tauto.
Qed.

(** With a consistent comparator the sort lists the orders by rank. *)
Lemma sort_by_rank (sb : string) (l : list Order) :
  consistent_keys Date_parse sb l ->
  StronglySorted (by_rank Date_parse sb) (Heap.sort_by (compare sb) l).
Proof.
  intros Hc.
  apply (HeapFacts.sort_by_sorted (by_rank Date_parse sb)
           (fun o => consistent_keys Date_parse sb [o])).
  - intros a b Pa Pb Hab. unfold by_rank.
    apply after_rank in Hab; [|now apply consistent_keys_pair].
    now apply Qlt_le_weak.
  - intros a b Pa Pb Hab. unfold by_rank.
    apply Qnot_lt_le. intros Hlt.
    apply after_rank in Hlt; [|now apply consistent_keys_pair].
    congruence.
  - intros a b c. unfold by_rank. apply Qle_trans.
  - now apply consistent_keys_Forall.
Qed.

Lemma same_key_not_after (sb : string) (a x y : Order) :
  same_key Date_parse sb a x = true ->
  same_key Date_parse sb a y = true ->
  Heap.after (compare sb) x y = false.
Proof.
  unfold same_key, Heap.after, compareFn, time_diff.
  destruct (String.eqb sb "newest") eqn:E1; cbn [orb].
  { destruct (Date_parse (createdAt a)) as [ta|]; [|discriminate].
    destruct (Date_parse (createdAt x)) as [tx|]; [|discriminate].
    destruct (Date_parse (createdAt y)) as [ty|]; [|discriminate].
    intros Hx Hy. apply Z.eqb_eq in Hx, Hy. subst tx ty.
    cbn [Time.sub]. rewrite Z.sub_diag. reflexivity. }
  destruct (String.eqb sb "oldest") eqn:E2.
  { destruct (Date_parse (createdAt a)) as [ta|]; [|discriminate].
    destruct (Date_parse (createdAt x)) as [tx|]; [|discriminate].
    destruct (Date_parse (createdAt y)) as [ty|]; [|discriminate].
    intros Hx Hy. apply Z.eqb_eq in Hx, Hy. subst tx ty.
    cbn [Time.sub]. rewrite Z.sub_diag. reflexivity. }
  destruct (String.eqb sb "amount-high") eqn:E3; cbn [orb].
  { intros Hx Hy. apply Qeq_bool_iff in Hx, Hy.
    apply negb_false_iff, Qle_bool_iff. lra. }
  destruct (String.eqb sb "amount-low") eqn:E4.
  { intros Hx Hy. apply Qeq_bool_iff in Hx, Hy.
    apply negb_false_iff, Qle_bool_iff. lra. }
  reflexivity.
Qed.


End ListViewProperties.


(** ** A scenario: accepting the pending order ORD-1

    The detail view of the pending order offers Reject and Accept.  The
    accept request succeeds; the panel fetches the list and the detail
    again; the detail comes back [accepted], and the view then offers Add
    Shipping Info alone. *)
Example accept_scenario :
  let st := setUi (with_orderDetailOpen true)
              (setSelectedOrder (Some sampleOrder)
                 (setOrders (Some [sampleOrder]) initialState)) in
  let c1 := settle 0 acceptingServer (start (onClick None (ClickAccept "ORD-1")) st) in
  let c2 := settle 1 acceptingServer c1 in
  let c3 := settle 0 acceptingServer c2 in
  offeredActions (selectedOrder st) = [Reject; Accept]
  /\ map req_endpoint (network c1) = [EpAccept "ORD-1"; EpOrders; EpOrder "ORD-1"]
  /\ offeredActions (selectedOrder (state c2)) = [AddShippingInfo]
  /\ orders (state c3) = Some [acceptedOrder]
  /\ inflight c3 = [].
Proof. repeat split. Qed.

(** * Further properties of the panel and of the shell *)

(** ** Tasks, their prefixes and their continuations *)

Lemma run_eq (t : Task) (c : Config) :
  run t c
  = {| state := prefix t (state c);
       network := (network c ++ dispatched t)%list;
       inflight := (inflight c ++ spawned t)%list |}.
Proof.
  revert c. induction t as [|f k IH|r k _|t1 IH1 k IH2]; intros c;
    cbn [run prefix spawned].
  - unfold dispatched. cbn. rewrite !app_nil_r. now destruct c.
  - rewrite IH. reflexivity.
  - reflexivity.
  - rewrite IH2, IH1. cbn [state network inflight].
    unfold dispatched. cbn [spawned].
    rewrite List.map_app, !app_assoc. reflexivity.
Qed.

Lemma state_run (t : Task) (c : Config) : state (run t c) = prefix t (state c).
Proof. now rewrite run_eq. Qed.

Lemma network_run (t : Task) (c : Config) :
  network (run t c) = (network c ++ dispatched t)%list.
Proof. now rewrite run_eq. Qed.

Lemma inflight_run (t : Task) (c : Config) :
  inflight (run t c) = (inflight c ++ spawned t)%list.
Proof. now rewrite run_eq. Qed.

Lemma settle_eq (i : nat) (srv : Server) (c : Config) (p : Pending) :
  inflight c !! i = Some p ->
  settle i srv c
  = {| state := prefix (p_resume p (srv (p_request p))) (state c);
       network := (network c ++ dispatched (p_resume p (srv (p_request p))))%list;
       inflight := (delete i (inflight c)
                    ++ spawned (p_resume p (srv (p_request p))))%list |}.
Proof. intros Hp. unfold settle. rewrite Hp, run_eq. reflexivity. Qed.

Lemma settle_none (i : nat) (srv : Server) (c : Config) :
  inflight c !! i = None -> settle i srv c = c.
Proof. intros Hp. unfold settle. now rewrite Hp. Qed.

Section Keeping.

Variable P : State -> Prop.
Variable R : Request -> Prop.

Lemma conts_keep_spawned (t : Task) :
  conts_keep P R t ->
  Forall (fun p => forall out,
            (forall st, P st -> P (prefix (p_resume p out) st))
            /\ Forall R (dispatched (p_resume p out))
            /\ conts_keep P R (p_resume p out))
    (spawned t).
Proof.
  induction t as [|f k IH|r k _|t1 IH1 k IH2]; cbn [conts_keep spawned].
  - constructor.
  - exact IH.
  - intros H. constructor; [exact H | constructor].
  - intros [H1 H2]. apply Forall_app. split; auto.
Qed.

Lemma run_inflight_keep (t : Task) (c : Config) :
  conts_keep P R t -> inflight_keep P R c -> inflight_keep P R (run t c).
Proof.
  unfold inflight_keep. intros Ht Hc. rewrite inflight_run.
  apply Forall_app. split; [exact Hc | now apply conts_keep_spawned].
Qed.

Lemma settle_inflight_keep (i : nat) (srv : Server) (c : Config) :
  inflight_keep P R c -> inflight_keep P R (settle i srv c).
Proof.
  unfold inflight_keep. intros Hc.
  destruct (inflight c !! i) as [p|] eqn:Hp;
    [|now rewrite settle_none].
  rewrite (settle_eq _ _ _ _ Hp). cbn [inflight].
  apply Forall_app. split; [now apply Forall_delete|].
  apply conts_keep_spawned.
  rewrite Forall_lookup in Hc. apply (Hc i p Hp).
Qed.

Lemma settle_state_keep (i : nat) (srv : Server) (c : Config) :
  inflight_keep P R c -> P (state c) -> P (state (settle i srv c)).
Proof.
  unfold inflight_keep. intros Hc Hst.
  destruct (inflight c !! i) as [p|] eqn:Hp;
    [|now rewrite settle_none].
  rewrite (settle_eq _ _ _ _ Hp). cbn [state].
  rewrite Forall_lookup in Hc. now apply (Hc i p Hp).
Qed.

Lemma settle_network_keep (i : nat) (srv : Server) (c : Config) :
  inflight_keep P R c ->
  exists new, network (settle i srv c) = (network c ++ new)%list /\ Forall R new.
Proof.
  unfold inflight_keep. intros Hc.
  destruct (inflight c !! i) as [p|] eqn:Hp.
  - rewrite (settle_eq _ _ _ _ Hp). cbn [network].
    eexists. split; [reflexivity|].
    rewrite Forall_lookup in Hc. apply (Hc i p Hp).
  - rewrite settle_none by exact Hp. exists []. split; [now rewrite app_nil_r|constructor].
Qed.

End Keeping.

(** ** What every callback of the panel keeps *)

Section PanelKeeps.

Variable authToken : option string.
Variable toLowerCase : string -> string.
Variable Date_parse : string -> option Z.

(** A property of the state that holds once the list is known and that
    survives every change that keeps the list and does not end a loading
    state. *)
Variable P : State -> Prop.
Hypothesis P_known : forall st, orders st <> None -> P st.
Hypothesis P_stable :
  forall st st',
    orders st' = orders st ->
    (loading (ui st) = true -> loading (ui st') = true) ->
    P st -> P st'.

#[local] Abbreviation R := (ReadRequest authToken).

#[local] Abbreviation good t :=
  ((forall st, P st -> P (prefix t st)) /\ conts_keep P R t).

Ltac keep_state :=
  let st := fresh "st" in
  let HP := fresh "HP" in
  intros st HP;
  first [ apply P_known; cbn; discriminate
        | apply (P_stable st); [reflexivity | cbn; auto | exact HP] ].

Ltac read_requests :=
  repeat first [ apply List.Forall_nil
               | apply List.Forall_cons;
                 [first [apply read_orders | apply read_order]|] ].

Ltac good_task :=
  repeat match goal with
         | |- _ /\ _ => split
         | |- True => exact I
         | |- forall out : Outcome _, _ =>
             let out := fresh "out" in
             intros out; destruct out as [? | [|] [? | ?]]; cbn
         | |- forall st : State, P st -> P _ => keep_state
         | |- Forall _ _ => cbn; read_requests
         | |- conts_keep _ _ _ => cbn
         end.

Lemma good_fetchOrders : good (fetchOrders authToken).
Proof. unfold fetchOrders. good_task. Qed.

Lemma good_fetchOrderDetails (i : string) : good (fetchOrderDetails authToken i).
Proof. unfold fetchOrderDetails. good_task. Qed.

Lemma good_acceptOrder (i : string) : good (acceptOrder authToken i).
Proof. unfold acceptOrder, fetchOrders, fetchOrderDetails. good_task. Qed.

Lemma good_rejectOrder (i : string) : good (rejectOrder authToken i).
Proof. unfold rejectOrder, fetchOrders. good_task. Qed.

Lemma good_submitShippingInfo (form : ShippingFormState) (i : string) :
  good (submitShippingInfo authToken form i).
Proof.
  unfold submitShippingInfo, fetchOrders, fetchOrderDetails.
  destruct (_ || _); good_task.
Qed.

Lemma good_sendMessage (input i : string) : good (sendMessage authToken input i).
Proof.
  unfold sendMessage, fetchOrderDetails.
  destruct (negb _); good_task.
Qed.

Lemma good_onClick (h : Handler) : good (onClick authToken h).
Proof.
  destruct h; cbn [onClick];
    auto using good_rejectOrder, good_acceptOrder; good_task.
Qed.

(** A change of one cell that is neither the list nor the loading flag. *)
Lemma good_set (f : State -> State) :
  (forall st, orders (f st) = orders st) ->
  (forall st, loading (ui (f st)) = loading (ui st)) ->
  good (SetState f Done).
Proof.
  intros Ho Hl. split; [|exact I]. cbn. intros st HP.
  apply (P_stable st); [apply Ho | rewrite Hl; auto | exact HP].
Qed.

Lemma good_run (t : Task) (c : Config) :
  good t ->
  inflight_keep P R c ->
  inflight_keep P R (run t c) /\ (P (state c) -> P (state (run t c))).
Proof.
  intros [Hpre Hconts] Hc. split.
  - now apply run_inflight_keep.
  - rewrite state_run. apply Hpre.
Qed.

Lemma step_keeps (ev : Event) (c : Config) :
  inflight_keep P R c ->
  inflight_keep P R (step authToken toLowerCase Date_parse ev c)
  /\ (P (state c) -> P (state (step authToken toLowerCase Date_parse ev c))).
Proof.
  intros Hc.
  assert (Hsame : inflight_keep P R c /\ (P (state c) -> P (state c)))
    by (split; auto).
  destruct ev; cbn [step];
    repeat match goal with
           | |- context [match ?x with _ => _ end] => destruct x
           end;
    try exact Hsame;
    try (apply good_run; [|exact Hc]);
    auto using good_fetchOrders, good_fetchOrderDetails, good_onClick,
      good_submitShippingInfo, good_sendMessage;
    try (apply good_set; intros; reflexivity);
    try (split; [|exact I]; cbn; keep_state).
  split; [now apply settle_inflight_keep | now apply (settle_state_keep P R)].
Qed.

Lemma steps_keep (evs : list Event) (c : Config) :
  inflight_keep P R c ->
  inflight_keep P R (steps authToken toLowerCase Date_parse evs c)
  /\ (P (state c) ->
      P (state (steps authToken toLowerCase Date_parse evs c))).
Proof.
  revert c. induction evs as [|ev evs IH]; intros c Hc; [split; auto|].
  cbn [steps foldl]. fold (steps authToken toLowerCase Date_parse evs).
  destruct (step_keeps ev c Hc) as [Hi Hs].
  destruct (IH _ Hi) as [Hi' Hs']. split; auto.
Qed.

End PanelKeeps.

(** ** Every trace of the panel *)

Section Traces.

Variable authToken : option string.
Variable toLowerCase : string -> string.
Variable Date_parse : string -> option Z.

#[local] Abbreviation step' := (step authToken toLowerCase Date_parse).
#[local] Abbreviation steps' := (steps authToken toLowerCase Date_parse).
#[local] Abbreviation reads := (ReadRequest authToken).

Lemma steps_app (evs evs' : list Event) (c : Config) :
  steps' (evs ++ evs') c = steps' evs' (steps' evs c).
Proof. unfold steps. apply foldl_app. Qed.

Lemma known_or_loading_known (st : State) :
  orders st <> None -> list_known_or_loading st.
Proof. unfold list_known_or_loading. congruence. Qed.

Lemma known_or_loading_stable (st st' : State) :
  orders st' = orders st ->
  (loading (ui st) = true -> loading (ui st') = true) ->
  list_known_or_loading st -> list_known_or_loading st'.
Proof. unfold list_known_or_loading. intros Ho Hl H Hn. rewrite Ho in Hn. auto. Qed.

Lemma known_stable (st st' : State) :
  orders st' = orders st ->
  (loading (ui st) = true -> loading (ui st') = true) ->
  list_known st -> list_known st'.
Proof. unfold list_known. intros Ho _ H. now rewrite Ho. Qed.

Lemma mounted_inflight_keep (P : State -> Prop) : inflight_keep P reads mounted.
Proof. constructor. Qed.

(** The continuations in flight in a reachable configuration keep the two
    properties of the list, and only read. *)
Lemma reachable_inflight (evs : list Event) :
  inflight_keep list_known_or_loading reads (steps' evs mounted)
  /\ inflight_keep list_known reads (steps' evs mounted).
Proof.
  split.
  - apply (steps_keep authToken toLowerCase Date_parse list_known_or_loading
             known_or_loading_known known_or_loading_stable).
    apply mounted_inflight_keep.
  - apply (steps_keep authToken toLowerCase Date_parse list_known
             (fun st H => H) known_stable).
    apply mounted_inflight_keep.
Qed.

Lemma reachable_known_or_loading (evs : list Event) :
  list_known_or_loading (state (steps' evs mounted)).
Proof.
  apply (steps_keep authToken toLowerCase Date_parse list_known_or_loading
           known_or_loading_known known_or_loading_stable).
  - apply mounted_inflight_keep.
  - intros _. reflexivity.
Qed.

(** X1. Along every sequence of events from the mounted panel, the order
    list is [null] only while the loading flag is set; and once the list is
    known it stays known, whatever happens next. *)
Theorem list_known_or_loading_always (evs evs' : list Event) :
  let c := steps' evs mounted in
  (orders (state c) = None -> loading (ui (state c)) = true)
  /\ (orders (state c) <> None -> orders (state (steps' evs' c)) <> None).
Proof.
  intros c. split.
  - apply reachable_known_or_loading.
  - intros Hk.
    apply (steps_keep authToken toLowerCase Date_parse list_known
             (fun st H => H) known_stable); [|exact Hk].
    apply reachable_inflight.
Qed.

Ltac elem_cases H :=
  repeat first
    [ apply elem_of_nil in H; contradiction
    | let H' := fresh H in
      apply elem_of_cons in H as [H' | H];
      [ try discriminate H'; try (injection H' as H'; subst) | ] ].

Lemma grow_nothing (c : Config) (Q : Request -> Prop) :
  exists new, network c = (network c ++ new)%list /\ Forall Q new.
Proof. exists []. split; [now rewrite app_nil_r | constructor]. Qed.

Lemma grow_run (t : Task) (c : Config) (Q : Request -> Prop) :
  Forall Q (dispatched t) ->
  exists new, network (run t c) = (network c ++ new)%list /\ Forall Q new.
Proof. intros H. exists (dispatched t). split; [apply network_run | exact H]. Qed.

(** What one event adds to the log of requests, and why. *)
Lemma step_caused (ev : Event) (c : Config) :
  inflight_keep (fun _ => True) reads c ->
  exists new,
    network (step' ev c) = (network c ++ new)%list
    /\ Forall (Caused authToken toLowerCase Date_parse (state c) ev) new.
Proof.
  intros Hc. destruct ev; cbn [step].
  - apply grow_run. repeat constructor.
  - destruct (row_shown _ _ _ _) eqn:Hrow; [|apply grow_nothing].
    apply grow_run. repeat constructor. exact Hrow.
  - destruct (row_shown _ _ _ _); [|apply grow_nothing].
    apply grow_run. constructor.
  - destruct (selectedOrder (state c)) as [o|] eqn:Ho;
      cbn [OrderDetailModal]; [|apply grow_nothing].
    destruct (orderDetailOpen (ui (state c))) eqn:Hopen;
      cbn [andb]; [|apply grow_nothing].
    destruct (bool_decide _) eqn:Hin; [|apply grow_nothing].
    apply bool_decide_eq_true in Hin.
    apply grow_run.
    destruct h; cbn.
    + constructor.
    + constructor.
    + constructor; [|constructor].
      unfold footerActions in Hin.
      destruct (status o) eqn:Hs; cbn in Hin; elem_cases Hin.
      now apply caused_reject.
    + constructor; [|constructor].
      unfold footerActions in Hin.
      destruct (status o) eqn:Hs; cbn in Hin; elem_cases Hin.
      now apply caused_accept.
    + constructor.
    + constructor.
  - destruct (selectedOrder (state c)); [|apply grow_nothing].
    destruct (shippingModalOpen _); [|apply grow_nothing].
    apply grow_run. constructor.
  - destruct (selectedOrder (state c)); [|apply grow_nothing].
    destruct (shippingModalOpen _); [|apply grow_nothing].
    apply grow_run. constructor.
  - destruct (selectedOrder (state c)) as [o|] eqn:Ho; [|apply grow_nothing].
    destruct (shippingModalOpen _) eqn:Hopen; [|apply grow_nothing].
    apply grow_run. unfold submitShippingInfo.
    destruct (Js.truthy (courierName (shippingForm (state c)))) eqn:H1;
      [|constructor].
    destruct (Js.truthy (trackingNumber (shippingForm (state c)))) eqn:H2;
      [|constructor].
    destruct (Js.truthy (estimatedDeliveryDate (shippingForm (state c)))) eqn:H3;
      [|constructor].
    apply truthy_true in H1, H2, H3.
    cbn. constructor; [|constructor].
    now apply caused_shipping.
  - destruct (selectedOrder (state c)); [|apply grow_nothing].
    destruct (messageModalOpen _); [|apply grow_nothing].
    apply grow_run. constructor.
  - destruct (selectedOrder (state c)); [|apply grow_nothing].
    destruct (messageModalOpen _); [|apply grow_nothing].
    apply grow_run. constructor.
  - destruct (selectedOrder (state c)) as [o|] eqn:Ho; [|apply grow_nothing].
    destruct (messageModalOpen _) eqn:Hopen; [|apply grow_nothing].
    apply grow_run. unfold sendMessage.
    destruct (Js.truthy (Js.trim (messageInput (state c)))) eqn:H1;
      [|constructor].
    apply truthy_true in H1.
    cbn. constructor; [|constructor].
    now apply caused_message.
  - destruct (Js.truthy_opt _); [|apply grow_nothing].
    apply grow_run. constructor.
  - destruct (Js.truthy_opt _); [|apply grow_nothing].
    apply grow_run. constructor.
  - apply grow_run. constructor.
  - apply grow_run. constructor.
  - apply grow_run. constructor.
  - destruct (settle_network_keep _ _ i srv c Hc) as (new & Hnew & Hreads).
    exists new. split; [exact Hnew|].
    eapply Forall_impl; [exact Hreads|].
    intros r Hr. destruct Hr; constructor.
Qed.

Lemma reachable_reads (evs : list Event) :
  inflight_keep (fun _ => True) reads (steps' evs mounted).
Proof.
  apply (steps_keep authToken toLowerCase Date_parse (fun _ => True));
    auto using mounted_inflight_keep.
Qed.

Lemma caused_api (st : State) (ev : Event) (r : Request) :
  Caused authToken toLowerCase Date_parse st ev r -> ApiRequest authToken r.
Proof. intros H. destruct H; constructor. Qed.



End Traces.

(** ** The callbacks one by one *)

Section Callbacks.

Variable authToken : option string.


(** X5. A mutation that fails (the request is rejected or the response is
    not ok) changes nothing but the error notification, which becomes the
    failure's message or else the callback's own text, and is never empty:
    the lists, the selected order, the modals, the shipping form and the
    message typed stay as they were, and nothing more is sent. *)
Theorem mutation_failure (m : Mutation) (srv : Server) (st : State)
    (msg : option string) :
  mutation_valid m = true ->
  thrown (mutation_failure_text m) false (srv (mutation_request authToken m))
  = Some msg ->
  let c := settle 0 srv (start (mutation_task authToken m) st) in
  state c = setError (Js.or_else msg (mutation_failure_text m)) st
  /\ network c = [mutation_request authToken m]
  /\ inflight c = []
  /\ errorTimer (ui (state c)) = Some 5000
  /\ shippingForm (state c) = shippingForm st
  /\ messageInput (state c) = messageInput st
  /\ shippingModalOpen (ui (state c)) = shippingModalOpen (ui st)
  /\ messageModalOpen (ui (state c)) = messageModalOpen (ui st).
Proof.
  intros Hvalid Hthrown c. subst c.
  assert (Hstate :
    state (settle 0 srv (start (mutation_task authToken m) st))
    = setError (Js.or_else msg (mutation_failure_text m)) st
    /\ network (settle 0 srv (start (mutation_task authToken m) st))
       = [mutation_request authToken m]
    /\ inflight (settle 0 srv (start (mutation_task authToken m) st)) = []).
  { destruct m as [i | i | form i | input i];
      cbn [mutation_task mutation_request mutation_failure_text mutation_valid] in *.
    - unfold postAccept in *. unfold settle, start, acceptOrder.
      cbn -[jsonHeaders].
      destruct (srv _) as [e | [|] [e | d]]; cbn -[jsonHeaders] in *;
        inversion Hthrown; subst; repeat split.
    - unfold postReject in *. unfold settle, start, rejectOrder.
      cbn -[jsonHeaders].
      destruct (srv _) as [e | [|] [e | d]]; cbn -[jsonHeaders] in *;
        inversion Hthrown; subst; repeat split.
    - unfold postShipping in *. unfold settle, start, submitShippingInfo.
      apply andb_true_iff in Hvalid as [Hvalid H3].
      apply andb_true_iff in Hvalid as [H1 H2].
      rewrite H1, H2, H3. cbn -[bearer shippingFormData].
      destruct (srv _) as [e | [|] [e | d]]; cbn -[bearer shippingFormData] in *;
        inversion Hthrown; subst; repeat split.
    - unfold postMessage in *. unfold settle, start, sendMessage.
      rewrite Hvalid. cbn -[jsonHeaders].
      destruct (srv _) as [e | [|] [e | d]]; cbn -[jsonHeaders] in *;
        inversion Hthrown; subst; repeat split. }
  destruct Hstate as (Hs & Hn & Hi). rewrite Hs.
  split; [reflexivity|]. split; [exact Hn|]. split; [exact Hi|].
  split; [|repeat split].
  unfold errorTimer. cbn.
  rewrite or_else_truthy; [reflexivity|]. now destruct m.
Qed.

(** The panel once a mutation has succeeded and called [fetchOrders] and
    [fetchOrderDetails]: both requests are in flight. *)
Lemma acceptOrder_settled (srv : Server) (orderId : string) (st : State)
    (json : JsonResult unit) :
  srv (postAccept authToken orderId) = Response true json ->
  settle 0 srv (start (acceptOrder authToken orderId) st)
  = run (Call (fetchOrders authToken)
           (Call (fetchOrderDetails authToken orderId) Done))
      {| state := setUi (with_successNotification
                           (Some "Order accepted successfully!")) st;
         network := [postAccept authToken orderId];
         inflight := [] |}.
Proof.
  unfold postAccept. intros Hok.
  unfold settle, start, acceptOrder.
  cbn -[jsonHeaders fetchOrders fetchOrderDetails].
  rewrite Hok. reflexivity.
Qed.

(** X6. When the accept request succeeds the panel sets the success
    notification and sends the two reads, list first; the detail view stays
    open on the order as last known.  The two reads may settle in either
    order: the list and the selected order end up the same, and so does
    the whole panel unless both reads fail, in which case the error
    notification is that of the read that settled last. *)
Theorem acceptOrder_success (srv0 srv : Server) (orderId : string) (st : State)
    (json : JsonResult unit) :
  srv0 (postAccept authToken orderId) = Response true json ->
  let c1 := settle 0 srv0 (start (acceptOrder authToken orderId) st) in
  let list_first := settle 0 srv (settle 0 srv c1) in
  let detail_first := settle 0 srv (settle 1 srv c1) in
  let list_failure :=
    thrown "Failed to fetch orders" true (srv (getOrders authToken)) in
  let detail_failure :=
    thrown "Failed to fetch order details" true (srv (getOrder authToken orderId)) in
  (network c1 = [postAccept authToken orderId; getOrders authToken;
                 getOrder authToken orderId]
   /\ successNotification (ui (state c1)) = Some "Order accepted successfully!"
   /\ selectedOrder (state c1) = selectedOrder st
   /\ orderDetailOpen (ui (state c1)) = orderDetailOpen (ui st))
  /\ (inflight list_first = [] /\ inflight detail_first = []
      /\ network list_first = network c1 /\ network detail_first = network c1)
  /\ (orders (state list_first) = Some (fetched_orders (srv (getOrders authToken)))
      /\ orders (state detail_first) = orders (state list_first)
      /\ selectedOrder (state detail_first) = selectedOrder (state list_first))
  /\ match list_failure, detail_failure with
     | Some msg, Some _ =>
         errorNotification (ui (state list_first))
         = Some "Failed to load order details"
         /\ errorNotification (ui (state detail_first))
            = Some (Js.or_else msg "Failed to load orders. Please try again.")
     | _, _ => state detail_first = state list_first
     end.
Proof.
  intros Hok c1 list_first detail_first list_failure detail_failure.
  subst list_failure detail_failure list_first detail_first c1.
  rewrite (acceptOrder_settled _ _ _ _ Hok).
  unfold getOrders, getOrder, settle, fetchOrders, fetchOrderDetails.
  cbn -[jsonHeaders].
  split; [repeat split|].
  destruct (srv (mkRequest GET EpOrders _ _)) as [m1 | [|] [m1 | d1]] eqn:E1;
    cbn -[jsonHeaders];
    destruct (srv (mkRequest GET (EpOrder orderId) _ _))
      as [m2 | [|] [m2 | d2]] eqn:E2;
    cbn -[jsonHeaders]; rewrite ?E1, ?E2; cbn -[jsonHeaders]; repeat split.
Qed.

Lemma submitShippingInfo_settled (srv : Server) (form : ShippingFormState)
    (orderId : string) (st : State) (json : JsonResult unit) :
  mutation_valid (MShipping form orderId) = true ->
  srv (postShipping authToken form orderId) = Response true json ->
  settle 0 srv (start (submitShippingInfo authToken form orderId) st)
  = run (Call (fetchOrders authToken)
           (Call (fetchOrderDetails authToken orderId) Done))
      {| state :=
           setShippingForm emptyShippingForm
             (setUi (fun prev =>
                       with_shippingModalOpen false
                         (with_successNotification
                            (Some "Shipping information added successfully!") prev))
                st);
         network := [postShipping authToken form orderId];
         inflight := [] |}.
Proof.
  cbn [mutation_valid]. intros Hvalid Hok.
  apply andb_true_iff in Hvalid as [Hvalid H3].
  apply andb_true_iff in Hvalid as [H1 H2].
  unfold postShipping in *.
  unfold settle, start, submitShippingInfo.
  rewrite H1, H2, H3.
  cbn -[bearer shippingFormData fetchOrders fetchOrderDetails].
  rewrite Hok. reflexivity.
Qed.

(** X7. When the shipping request succeeds the panel closes the shipping
    modal, empties the form, sets the success notification and sends the
    two reads; the lists and the selected order wait for the reads.  With
    the form emptied, submitting again sends nothing. *)
Theorem submitShippingInfo_success (srv0 : Server) (form : ShippingFormState)
    (orderId : string) (st : State) (json : JsonResult unit) :
  mutation_valid (MShipping form orderId) = true ->
  srv0 (postShipping authToken form orderId) = Response true json ->
  let c1 := settle 0 srv0 (start (submitShippingInfo authToken form orderId) st) in
  let again :=
    start (submitShippingInfo authToken (shippingForm (state c1)) orderId)
      (state c1) in
  (shippingModalOpen (ui (state c1)) = false
   /\ shippingForm (state c1) = emptyShippingForm
   /\ successNotification (ui (state c1))
      = Some "Shipping information added successfully!"
   /\ network c1 = [postShipping authToken form orderId; getOrders authToken;
                    getOrder authToken orderId]
   /\ length (inflight c1) = 2%nat)
  /\ (orders (state c1) = orders st
      /\ selectedOrder (state c1) = selectedOrder st
      /\ orderDetailOpen (ui (state c1)) = orderDetailOpen (ui st)
      /\ messageInput (state c1) = messageInput st)
  /\ (network again = []
      /\ errorNotification (ui (state again))
         = Some "Please fill in all required fields").
Proof.
  intros Hvalid Hok c1 again. subst again c1.
  rewrite (submitShippingInfo_settled _ _ _ _ _ Hvalid Hok).
  repeat split.
Qed.

(** X8. When the message request succeeds the panel empties the input,
    sets the success notification and reads the order's detail again, not
    the list; the message modal stays open.  When that read succeeds the
    detail view opens on the order the server sent, over whatever was
    shown. *)
Theorem sendMessage_success (srv0 srv : Server) (input orderId : string)
    (st : State) (json : JsonResult unit) (data : option Order) :
  mutation_valid (MMessage input orderId) = true ->
  srv0 (postMessage authToken input orderId) = Response true json ->
  srv (getOrder authToken orderId) = Response true (JsonData data) ->
  let c1 := settle 0 srv0 (start (sendMessage authToken input orderId) st) in
  let c2 := settle 0 srv c1 in
  (messageInput (state c1) = ""
   /\ successNotification (ui (state c1)) = Some "Message sent!"
   /\ messageModalOpen (ui (state c1)) = messageModalOpen (ui st)
   /\ network c1 = [postMessage authToken input orderId; getOrder authToken orderId]
   /\ orders (state c1) = orders st
   /\ selectedOrder (state c1) = selectedOrder st)
  /\ (selectedOrder (state c2) = data
      /\ orderDetailOpen (ui (state c2)) = true
      /\ messageModalOpen (ui (state c2)) = messageModalOpen (ui st)
      /\ orders (state c2) = orders st
      /\ network c2 = network c1
      /\ inflight c2 = []).
Proof.
  intros Hvalid Hok Hdetail c1 c2. subst c2 c1. cbn [mutation_valid] in Hvalid.
  unfold postMessage, getOrder in *.
  unfold settle, start, sendMessage, fetchOrderDetails.
  rewrite Hvalid. cbn -[jsonHeaders].
  rewrite Hok. cbn -[jsonHeaders].
  rewrite Hdetail. cbn -[jsonHeaders].
  repeat split.
Qed.

(** X9. Two refreshes in flight at once (the interval fires during a
    manual refresh): whichever request settles first, the list shown in the
    end is the one of the response applied last.  After the first response
    the panel already shows its list as loaded, with the other request
    still in flight. *)
Theorem fetchOrders_last_response_wins (srvA srvB : Server) (st : State)
    (second_first : bool) :
  let c := run (fetchOrders authToken) (start (fetchOrders authToken) st) in
  let mid := settle (if second_first then 1 else 0) srvA c in
  let fin := settle 0 srvB mid in
  (network c = [getOrders authToken; getOrders authToken]
   /\ length (inflight c) = 2%nat)
  /\ (orders (state mid) = Some (fetched_orders (srvA (getOrders authToken)))
      /\ loading (ui (state mid)) = false
      /\ length (inflight mid) = 1%nat)
  /\ (orders (state fin) = Some (fetched_orders (srvB (getOrders authToken)))
      /\ loading (ui (state fin)) = false
      /\ inflight fin = []).
Proof.
  intros c mid fin. subst fin mid c.
  unfold getOrders, settle, start, fetchOrders.
  destruct second_first; cbn -[jsonHeaders];
    (split; [repeat split|]);
    destruct (srvA (mkRequest GET EpOrders _ _)) as [m1 | [|] [m1 | d1]] eqn:E1;
    cbn -[jsonHeaders];
    destruct (srvB (mkRequest GET EpOrders _ _)) as [m2 | [|] [m2 | d2]] eqn:E2;
    cbn -[jsonHeaders]; rewrite ?E1, ?E2; cbn -[jsonHeaders]; repeat split.
Qed.

(** X22. When the read of an order's detail succeeds the panel shows what
    the server sent: that order becomes the selected one and the detail
    view is flagged open; the list, the loading flag and the notifications
    stay.  When the response carries no order the flag is set all the same,
    but the modal renders nothing, so no button of it can be pressed. *)
Theorem fetchOrderDetails_success (srv : Server) (orderId : string) (st : State)
    (data : option Order) (h : Handler)
    (toLowerCase : string -> string) (Date_parse : string -> option Z) :
  srv (getOrder authToken orderId) = Response true (JsonData data) ->
  let c := settle 0 srv (start (fetchOrderDetails authToken orderId) st) in
  state c = setUi (with_orderDetailOpen true) (setSelectedOrder data st)
  /\ network c = [getOrder authToken orderId]
  /\ inflight c = []
  /\ offeredActions (selectedOrder (state c)) = offeredActions data
  /\ (data = None ->
      orderDetailOpen (ui (state c)) = true
      /\ OrderDetailModal (selectedOrder (state c)) = None
      /\ step authToken toLowerCase Date_parse (EvClick h) c = c).
Proof.
  intros Hok c. subst c. unfold getOrder in *.
  unfold settle, start, fetchOrderDetails. cbn -[jsonHeaders].
  rewrite Hok. cbn -[jsonHeaders].
  repeat split. all: subst data; reflexivity.
Qed.

End Callbacks.

Lemma mutation_failure_witness :
  let srv : Server := fun _ => Response false (JsonData None) in
  let form := {| courierName := "dhl"; trackingNumber := "KN2025-891234";
                 estimatedDeliveryDate := "2025-03-01"; notes := "fragile";
                 proofImages := [] |} in
  let st := setShippingForm form
              (setUi (with_shippingModalOpen true) initialState) in
  let c := settle 0 srv (start (submitShippingInfo None form "ORD-1") st) in
  errorNotification (ui (state c)) = Some "Failed to submit shipping info"
  /\ shippingForm (state c) = form
  /\ shippingModalOpen (ui (state c)) = true.
Proof.
  intros srv form st c.
  destruct (mutation_failure None (MShipping form "ORD-1") srv st
              (Some "Failed to submit shipping info"))
    as (Hs & _ & _ & _ & Hform & _ & Hopen & _);
    [reflexivity | reflexivity | ].
  split; [exact (f_equal (fun s => errorNotification (ui s)) Hs)|].
  split; [exact Hform | exact Hopen].
Defined.

Lemma acceptOrder_success_witness :
  let st := setUi (with_orderDetailOpen true)
              (setSelectedOrder (Some sampleOrder)
                 (setOrders (Some [sampleOrder]) initialState)) in
  let c1 := settle 0 acceptingServer (start (acceptOrder None "ORD-1") st) in
  network c1 = [postAccept None "ORD-1"; getOrders None; getOrder None "ORD-1"]
  /\ state (settle 0 acceptingServer (settle 1 acceptingServer c1))
     = state (settle 0 acceptingServer (settle 0 acceptingServer c1)).
Proof.
  intros st c1.
  destruct (acceptOrder_success None acceptingServer acceptingServer "ORD-1" st
              (JsonData None))
    as ((Hnet & _) & _ & _ & Hsame); [reflexivity|].
  split; [exact Hnet | exact Hsame].
Defined.

Lemma submitShippingInfo_success_witness :
  let form := {| courierName := "dhl"; trackingNumber := "KN2025-891234";
                 estimatedDeliveryDate := "2025-03-01"; notes := "fragile";
                 proofImages := [mkFile "receipt.jpg"] |} in
  let st := setShippingForm form
              (setUi (with_shippingModalOpen true) initialState) in
  let c1 := settle 0 acceptingServer
              (start (submitShippingInfo None form "ORD-1") st) in
  shippingModalOpen (ui (state c1)) = false
  /\ shippingForm (state c1) = emptyShippingForm.
Proof.
  intros form st c1.
  destruct (submitShippingInfo_success None acceptingServer form "ORD-1" st
              (JsonData None))
    as ((Hclosed & Hempty & _) & _); [reflexivity | reflexivity |].
  split; [exact Hclosed | exact Hempty].
Defined.

Lemma sendMessage_success_witness :
  let st := setMessageInput "On its way"
              (setUi (with_messageModalOpen true)
                 (setSelectedOrder (Some sampleOrder) initialState)) in
  let c2 := settle 0 acceptingServer
              (settle 0 acceptingServer
                 (start (sendMessage None "On its way" "ORD-1") st)) in
  selectedOrder (state c2) = Some acceptedOrder
  /\ orderDetailOpen (ui (state c2)) = true
  /\ messageModalOpen (ui (state c2)) = true.
Proof.
  intros st c2.
  destruct (sendMessage_success None acceptingServer acceptingServer
              "On its way" "ORD-1" st (JsonData None) (Some acceptedOrder))
    as (_ & Hsel & Hopen & Hmsg & _);
    [vm_compute; reflexivity | reflexivity | reflexivity |].
  split; [exact Hsel|]. split; [exact Hopen | exact Hmsg].
Defined.

(** ** The shipping form *)

Lemma string_length_append (a b : string) :
  String.length (a ++ b) = (String.length a + String.length b)%nat.
Proof.
  induction a as [|x a IH]; [reflexivity|].
  change (String x a ++ b) with (String x (a ++ b)).
  cbn [String.length Nat.add]. f_equal. exact IH.
Qed.

Lemma append_inj_tail (a b c : string) : a ++ c = b ++ c -> a = b.
Proof.
  revert b. induction a as [|x a IH]; intros [|y b] H;
    change (String ?x ?a ++ c) with (String x (a ++ c)) in H;
    change ("" ++ c) with c in H.
  - reflexivity.
  - apply (f_equal String.length) in H. cbn [String.length] in H.
    rewrite string_length_append in H. lia.
  - apply (f_equal String.length) in H. cbn [String.length] in H.
    rewrite string_length_append in H. lia.
  - injection H as -> H. f_equal. now apply IH.
Qed.

Lemma to_uint_nonnil (n : nat) : Nat.to_uint n <> Decimal.Nil.
Proof.
  rewrite <- (DecimalNat.Unsigned.of_to n) at 1.
  rewrite DecimalNat.Unsigned.to_of. apply DecimalFacts.unorm_nonnil.
Qed.

Lemma string_of_nat_inj (n m : nat) : Js.string_of_nat n = Js.string_of_nat m -> n = m.
Proof.
  unfold Js.string_of_nat. intros H.
  apply DecimalNat.Unsigned.to_uint_inj.
  apply (f_equal NilZero.uint_of_string) in H.
  rewrite !NilZero.usu in H by apply to_uint_nonnil.
  now injection H.
Qed.

(** The name of the form field of the [i]-th proof image. *)
Lemma proofImage_key_inj (i j : nat) :
  "proofImages[" ++ Js.string_of_nat i ++ "]"
  = "proofImages[" ++ Js.string_of_nat j ++ "]" ->
  i = j.
Proof.
  intros H. apply String.app_inj in H.
  apply append_inj_tail in H. now apply string_of_nat_inj.
Qed.

Lemma imap_offset {A B : Type} (f : nat -> A -> B) (l : list A) (k : nat) :
  imap (fun i => f (k + i)%nat) l = zip_with f (seq k (length l)) l.
Proof.
  revert k. induction l as [|x l IH]; intros k; [reflexivity|].
  cbn. rewrite Nat.add_0_r. f_equal.
  rewrite <- IH. apply imap_ext. intros i y _. cbn. f_equal. lia.
Qed.

(** X10. The body of the shipping request has the four text fields first,
    then one field per proof image, in the order of the form: the [i]-th
    image goes under the name [proofImages[i]].  No field name occurs
    twice, so no image overwrites another. *)
Theorem shippingFormData_fields (form : ShippingFormState) (i : nat) :
  take 4 (shippingFormData form)
  = [ ("courierName", FText (courierName form))
    ; ("trackingNumber", FText (trackingNumber form))
    ; ("estimatedDeliveryDate", FText (estimatedDeliveryDate form))
    ; ("notes", FText (notes form)) ]
  /\ length (shippingFormData form) = (4 + length (proofImages form))%nat
  /\ shippingFormData form !! (4 + i)%nat
     = (fun image => ("proofImages[" ++ Js.string_of_nat i ++ "]", FFile image))
         <$> proofImages form !! i
  /\ NoDup (map fst (shippingFormData form)).
Proof.
  unfold shippingFormData. split; [reflexivity|]. split; [|split].
  - rewrite length_app, length_imap. reflexivity.
  - rewrite lookup_app_r by (cbn; lia).
    replace (4 + i - length _)%nat with i by (cbn; lia).
    apply list_lookup_imap.
  - rewrite List.map_app. apply NoDup_app. split; [|split].
    + cbn. apply (bool_decide_unpack _). vm_compute. exact I.
    + intros x Hx Himg.
      apply list_elem_of_In, List.in_map_iff in Himg as ((k & v) & <- & Hin).
      apply list_elem_of_In, elem_of_lookup_imap in Hin as (j & y & Heq & _).
      injection Heq as -> _. cbn in Hx.
      repeat (apply elem_of_cons in Hx as [Hx | Hx]; [discriminate Hx|]).
      now apply elem_of_nil in Hx.
    + change (map fst ?l) with (fst <$> l).
      rewrite fmap_imap.
      change (fun n : nat => fst ∘ _)
        with (fun (n : nat) (_ : File) => "proofImages[" ++ Js.string_of_nat n ++ "]").
      rewrite imap_seq_0.
      apply NoDup_fmap_2; [|apply NoDup_seq].
      intros a b. apply proofImage_key_inj.
Qed.

Lemma filter_index_all {A : Type} (p : A -> nat -> bool) (k : nat) (l : list A) :
  (forall x i, (k <= i)%nat -> p x i = true) -> filter_index p k l = l.
Proof.
  revert k. induction l as [|x l IH]; intros k Hp; [reflexivity|].
  cbn. rewrite Hp by lia. f_equal. apply IH. intros y i Hi. apply Hp. lia.
Qed.

Lemma filter_index_delete {A : Type} (idx k : nat) (l : list A) :
  filter_index (fun _ i => negb (Nat.eqb i (idx + k))) k l = delete idx l.
Proof.
  revert idx k. induction l as [|x l IH]; intros idx k; [now destruct idx|].
  cbn [filter_index]. destruct idx as [|idx].
  - cbn [Nat.add]. rewrite Nat.eqb_refl. cbn [negb delete].
    apply filter_index_all. intros y i Hi.
    apply negb_true_iff, Nat.eqb_neq. lia.
  - replace (Nat.eqb k (S idx + k)) with false
      by (symmetry; apply Nat.eqb_neq; lia).
    cbn [negb]. change (delete (S idx) (x :: l)) with (x :: delete idx l).
    f_equal. rewrite <- (IH idx (S k)).
    f_equal. replace (S idx + k)%nat with (idx + S k)%nat by lia. reflexivity.
Qed.

(** X11. The remove button of a thumbnail takes exactly the image at its
    index out of the form and keeps the others in order; the text fields
    stay.  An index past the end changes nothing.  Adding files appends
    them, and removing a file just added gives the form back. *)
Theorem removeProofImage_deletes (idx : nat) (files : list File) (file : File)
    (form : ShippingFormState) :
  proofImages (removeProofImage idx form) = delete idx (proofImages form)
  /\ removeProofImage idx form
     = with_proofImages (delete idx (proofImages form)) form
  /\ removeProofImage (length (proofImages form) + idx) form = form
  /\ proofImages (addProofImages files form) = (proofImages form ++ files)%list
  /\ removeProofImage (length (proofImages form)) (addProofImages [file] form)
     = form.
Proof.
  assert (Hdel : forall i f,
             removeProofImage i f = with_proofImages (delete i (proofImages f)) f).
  { intros i f. unfold removeProofImage.
    rewrite <- (filter_index_delete i 0 (proofImages f)).
    now rewrite Nat.add_0_r. }
  split; [now rewrite Hdel|]. split; [apply Hdel|]. split; [|split].
  - rewrite Hdel, delete_take_drop.
    rewrite take_ge, drop_ge, app_nil_r by lia. now destruct form.
  - reflexivity.
  - rewrite Hdel. unfold addProofImages. cbn.
    rewrite delete_middle. rewrite app_nil_r. now destruct form.
Qed.

(** ** The list the panel shows *)

Lemma strip_prefix_spec (p s r : string) :
  Js.strip_prefix p s = Some r <-> s = p ++ r.
Proof.
  revert s. induction p as [|a p IH]; intros s.
  - cbn. change ("" ++ r) with r. destruct s; split; congruence.
  - change (String a p ++ r) with (String a (p ++ r)).
    destruct s as [|b s]; cbn; [split; discriminate|].
    destruct (Ascii.eqb_spec a b) as [->|Hne].
    + rewrite IH. split; [intros ->; reflexivity | intros H; now injection H].
    + split; [discriminate | intros H; injection H; congruence].
Qed.

Lemma append_assoc (a b c : string) : (a ++ b) ++ c = a ++ (b ++ c).
Proof.
  induction a as [|x a IH]; [reflexivity|].
  change (String x a ++ b) with (String x (a ++ b)).
  change (String x (a ++ b) ++ c) with (String x ((a ++ b) ++ c)).
  change (String x a ++ (b ++ c)) with (String x (a ++ (b ++ c))).
  now rewrite IH.
Qed.

(** [includes] is the substring test. *)
Lemma includes_spec (s sub : string) :
  Js.includes s sub = true <-> exists a b, s = a ++ sub ++ b.
Proof.
  induction s as [|x s IH].
  - cbn. destruct (Js.strip_prefix sub "") as [r|] eqn:Hp.
    + apply strip_prefix_spec in Hp. split; [|reflexivity].
      intros _. exists "", r. exact Hp.
    + split; [discriminate|]. intros (a & b & H).
      destruct a as [|y a]; [|discriminate H].
      change ("" ++ sub ++ b) with (sub ++ b) in H.
      apply strip_prefix_spec in H. congruence.
  - cbn [Js.includes].
    destruct (Js.strip_prefix sub (String x s)) as [r|] eqn:Hp.
    + apply strip_prefix_spec in Hp. split; [|reflexivity].
      intros _. exists "", r. exact Hp.
    + rewrite IH. split.
      * intros (a & b & ->). exists (String x a), b. reflexivity.
      * intros (a & b & H). destruct a as [|y a].
        -- change ("" ++ sub ++ b) with (sub ++ b) in H.
           apply strip_prefix_spec in H. congruence.
        -- change (String y a ++ sub ++ b) with (String y (a ++ sub ++ b)) in H.
           injection H as _ ->. now exists a, b.
Qed.

Lemma includes_refl (s : string) : Js.includes s s = true.
Proof.
  apply includes_spec. exists "", "".
  change ("" ++ s ++ "") with (s ++ "").
  induction s as [|x s IH]; [reflexivity|].
  change (String x s ++ "") with (String x (s ++ "")). now rewrite <- IH.
Qed.

Section ListRows.

Variable authToken : option string.
Variable toLowerCase : string -> string.
Variable Date_parse : string -> option Z.

#[local] Abbreviation rows := (renderedOrders toLowerCase Date_parse).

Lemma renderedOrders_eq (st : State) :
  rows st
  = match orders st with
    | Some l =>
        Heap.sort_by (compareFn Date_parse (sortBy st))
          (List.filter (filterCallback toLowerCase (filterStatus st) (searchQuery st)) l)
    | None => []
    end.
Proof.
  unfold renderedOrders, visibleOrders.
  destruct (orders st) as [l|]; [|reflexivity].
  rewrite filteredOrders_eval.
  apply (HeapFacts.deref_new _ [l]).
Qed.

(** X12. The rows on screen are the orders of the list that pass the
    status filter and the search, each as often as it is in the list,
    whatever the sort key: sorting neither drops nor repeats an order.  With
    a status chosen in the filter, every row has that status. *)
Theorem rendered_rows (st : State) (o : Order) (s : Status) :
  Permutation (rows st)
    (List.filter (filterCallback toLowerCase (filterStatus st) (searchQuery st))
       (default [] (orders st)))
  /\ (o ∈ rows st
      <-> o ∈ default [] (orders st)
          /\ matchesFilter (filterStatus st) o = true
          /\ matchesSearch toLowerCase (searchQuery st) o = true)
  /\ (length (rows st) <= length (default [] (orders st)))%nat
  /\ (filterStatus st = status_string s -> o ∈ rows st -> status o = s).
Proof.
  assert (Hperm : Permutation (rows st)
            (List.filter (filterCallback toLowerCase (filterStatus st) (searchQuery st))
               (default [] (orders st)))).
  { rewrite renderedOrders_eq. destruct (orders st) as [l|]; [|reflexivity].
    apply HeapFacts.sort_by_perm. }
  assert (Hin : o ∈ rows st
      <-> o ∈ default [] (orders st)
          /\ matchesFilter (filterStatus st) o = true
          /\ matchesSearch toLowerCase (searchQuery st) o = true).
  { rewrite Hperm, list_elem_of_In, List.filter_In, <- list_elem_of_In.
    unfold filterCallback. rewrite andb_true_iff. reflexivity. }
  split; [exact Hperm|]. split; [exact Hin|]. split.
  - rewrite Hperm. apply List.filter_length_le.
  - intros Hfs Ho. apply Hin in Ho as (_ & Hf & _).
    rewrite Hfs in Hf. unfold matchesFilter in Hf.
    destruct s, (status o); cbn in Hf; congruence.
Qed.

(** X13. The search is a substring test on the lower-cased order id and
    buyer name: a non-empty query matches exactly the orders whose id or
    buyer name, lower-cased, contains the lower-cased query.  So two
    queries that differ in case only match the same orders, and an order
    is found by its full id and by its full buyer name. *)
Theorem search_matches (q q' : string) (o : Order) :
  q <> "" ->
  q' <> "" ->
  toLowerCase q' = toLowerCase q ->
  (matchesSearch toLowerCase q o = true
   <-> (exists a b, toLowerCase (id o) = a ++ toLowerCase q ++ b)
       \/ (exists a b, toLowerCase (buyerName o) = a ++ toLowerCase q ++ b))
  /\ matchesSearch toLowerCase q' o = matchesSearch toLowerCase q o
  /\ matchesSearch toLowerCase (id o) o = true
  /\ matchesSearch toLowerCase (buyerName o) o = true.
Proof.
  intros Hq Hq' Hcase. apply truthy_true in Hq, Hq'.
  split; [|split; [|split]].
  - unfold matchesSearch. rewrite Hq. cbn [negb orb].
    rewrite orb_true_iff, !includes_spec. reflexivity.
  - unfold matchesSearch. now rewrite Hq, Hq', Hcase.
  - unfold matchesSearch. rewrite includes_refl.
    now destruct (negb _).
  - unfold matchesSearch. rewrite includes_refl.
    now rewrite !orb_true_r.
Qed.

(** X14. In every state the panel can reach, the list area shows exactly
    one region.  It is the spinner while loading.  Otherwise the list is
    known: an empty list gives the "No orders yet" text with its button to
    create a payment link; a list whose orders are all filtered out gives
    "No matching orders" without the button; else the rows are shown. *)
Theorem list_area_regions (evs : list Event) :
  let st := state (steps authToken toLowerCase Date_parse evs mounted) in
  listArea st (rows st)
  = (if loading (ui st) then [Spinner]
     else match orders st, rows st with
          | Some [], _ => [EmptyState "No orders yet" true]
          | Some (_ :: _), [] => [EmptyState "No matching orders" false]
          | Some (_ :: _), shown => [Rows shown]
          | None, _ => []
          end)
  /\ (loading (ui st) = false -> orders st <> None)
  /\ length (listArea st (rows st)) = 1%nat.
Proof.
  intros st.
  pose proof (reachable_known_or_loading authToken toLowerCase Date_parse evs)
    as Hinv.
  fold st in Hinv. unfold list_known_or_loading in Hinv.
  assert (Harea : listArea st (rows st)
    = if loading (ui st) then [Spinner]
      else match orders st, rows st with
           | Some [], _ => [EmptyState "No orders yet" true]
           | Some (_ :: _), [] => [EmptyState "No matching orders" false]
           | Some (_ :: _), shown => [Rows shown]
           | None, _ => []
           end).
  { unfold listArea.
    destruct (loading (ui st)) eqn:Hl; cbn [negb andb]; [reflexivity|].
    destruct (orders st) as [[|x l]|] eqn:Ho.
    - assert (Hrows : rows st = []) by (rewrite renderedOrders_eq, Ho; reflexivity).
      rewrite Hrows. reflexivity.
    - destruct (rows st) as [|y shown]; reflexivity.
    - specialize (Hinv eq_refl). congruence. }
  split; [exact Harea|]. split.
  - intros Hl Ho. specialize (Hinv Ho). congruence.
  - rewrite Harea.
    destruct (loading (ui st)) eqn:Hl; [reflexivity|].
    destruct (orders st) as [[|x l]|] eqn:Ho; [reflexivity | |].
    + now destruct (rows st).
    + specialize (Hinv eq_refl). congruence.
Qed.

End ListRows.

Lemma search_matches_witness :
  matchesSearch sampleLower "AMI" sampleOrder = true
  /\ matchesSearch sampleLower "ami" sampleOrder
     = matchesSearch sampleLower "AMI" sampleOrder.
Proof.
  destruct (search_matches sampleLower "AMI" "ami" sampleOrder)
    as (Hiff & Hcase & _); [discriminate | discriminate | reflexivity |].
  split; [|exact Hcase].
  apply Hiff. right. exists "", "na". reflexivity.
Defined.

(** ** Relative times and days left *)

Lemma div_ltb (d a b : Z) : 0 < a -> (d / a <? b) = (d <? a * b).
Proof.
  intros Ha.
  destruct (Z.ltb_spec (d / a) b) as [H|H], (Z.ltb_spec d (a * b)) as [H'|H'];
    try reflexivity; exfalso.
  - apply (Z.div_le_lower_bound d a b Ha) in H'. lia.
  - apply (Z.div_lt_upper_bound d a b Ha) in H'. lia.
Qed.

Section RelativeTimes.

Variable Date_parse : string -> option Z.
Variable localeDate_enKE : Z -> string.

#[local] Abbreviation fmt := (formatTime Date_parse localeDate_enKE).

(** X15. For a time stamp that parses, [formatTime] depends on the elapsed
    milliseconds [now - t] alone, by ranges: under a minute (a time stamp
    in the future included) "just now"; under an hour the whole minutes;
    under a day the whole hours; from one day to under two "yesterday";
    under seven days the whole days, two to six; from seven days on the
    date.  A non-empty string that is no date gives "Invalid Date", never a
    text with NaN in it. *)
Theorem formatTime_ranges (now t : Z) (s bad : string) :
  Js.truthy s = true ->
  Date_parse s = Some t ->
  Js.truthy bad = true ->
  Date_parse bad = None ->
  fmt now s
  = (let d := now - t in
     if d <? 60000 then "just now"
     else if d <? 3600000 then Js.string_of_Z (d / 60000) ++ "m ago"
     else if d <? 86400000 then Js.string_of_Z (d / 3600000) ++ "h ago"
     else if d <? 172800000 then "yesterday"
     else if d <? 604800000 then Js.string_of_Z (d / 86400000) ++ "d ago"
     else localeDate_enKE t)
  /\ fmt now bad = "Invalid Date".
Proof.
  intros Hs Hp Hbad Hnone. split.
  - unfold formatTime. rewrite Hs, Hp.
    cbn [negb Time.sub Time.floor_div Time.lt Time.strict_eq Time.to_string
           toLocaleDateString].
    set (d := now - t).
    rewrite !Z.div_div by lia.
    change (1000 * 60) with 60000. change (60000 * 60) with 3600000.
    change (3600000 * 24) with 86400000.
    rewrite !div_ltb by lia.
    change (1000 * 60) with 60000. change (60000 * 60) with 3600000.
    change (3600000 * 24) with 86400000. change (86400000 * 7) with 604800000.
    destruct (Z.ltb_spec d 60000) as [H1|H1]; [reflexivity|].
    destruct (Z.ltb_spec d 3600000) as [H2|H2]; [reflexivity|].
    destruct (Z.ltb_spec d 86400000) as [H3|H3]; [reflexivity|].
    destruct (Z.ltb_spec d 172800000) as [H4|H4].
    + replace (d / 86400000) with 1; [reflexivity|].
      apply (Z.div_unique d 86400000 1 (d - 86400000)); lia.
    + replace (d / 86400000 =? 1) with false; [reflexivity|].
      symmetry. apply Z.eqb_neq. intros Heq.
      pose proof (Z.mul_div_le d 86400000 ltac:(lia)).
      pose proof (Z.mod_pos_bound d 86400000 ltac:(lia)).
      pose proof (Z.div_mod d 86400000 ltac:(lia)). lia.
  - unfold formatTime. rewrite Hbad, Hnone. reflexivity.
Qed.

(** X16. The days left to ship are the elapsed-to-deadline milliseconds
    divided by a day and rounded up: [n] days are shown exactly when the
    deadline is more than [n - 1] and at most [n] days ahead.  So a
    deadline still ahead shows at least 1, and a deadline reached or
    passed shows 0 or less. *)
Theorem daysRemaining_ceiling (now t : Z) (deadline : string) :
  Date_parse deadline = Some t ->
  exists n,
    daysRemaining Date_parse now deadline = Some n
    /\ (n - 1) * 86400000 < t - now <= n * 86400000
    /\ (now < t <-> 1 <= n).
Proof.
  intros Hp. unfold daysRemaining. rewrite Hp. cbn [Time.sub].
  change (1000 * 60 * 60 * 24) with 86400000.
  set (d := t - now). exists (- (- d / 86400000)). split; [reflexivity|].
  pose proof (Z.div_mod (- d) 86400000 ltac:(lia)) as Hdm.
  pose proof (Z.mod_pos_bound (- d) 86400000 ltac:(lia)) as Hb.
  split; [lia|]. subst d. split; intros H; lia.
Qed.

End RelativeTimes.

Lemma formatTime_ranges_witness :
  formatTime sampleParse (fun _ => "14/11/2023") (1700000000000 + 7200000)
    "2023-11-14T22:13:20Z" = "2h ago"
  /\ formatTime sampleParse (fun _ => "14/11/2023") 0 "2023-11-14T22:13:20Z"
     = "just now"
  /\ formatTime sampleParse (fun _ => "14/11/2023") 0 "soon" = "Invalid Date".
Proof.
  split; [|split].
  - destruct (formatTime_ranges sampleParse (fun _ => "14/11/2023")
                (1700000000000 + 7200000) 1700000000000
                "2023-11-14T22:13:20Z" "soon") as [H _];
      [reflexivity | reflexivity | reflexivity | reflexivity | ].
    exact H.
  - destruct (formatTime_ranges sampleParse (fun _ => "14/11/2023")
                0 1700000000000 "2023-11-14T22:13:20Z" "soon") as [H _];
      [reflexivity | reflexivity | reflexivity | reflexivity | ].
    exact H.
  - apply (formatTime_ranges sampleParse (fun _ => "14/11/2023")
             0 1700000000000 "2023-11-14T22:13:20Z" "soon");
      reflexivity.
Defined.

Lemma daysRemaining_ceiling_witness :
  exists n,
    daysRemaining sampleParse (1700000000000 - 1) "2023-11-14T22:13:20Z" = Some n
    /\ (n - 1) * 86400000 < 1700000000000 - (1700000000000 - 1) <= n * 86400000
    /\ (1700000000000 - 1 < 1700000000000 <-> 1 <= n).
Proof.
  apply (daysRemaining_ceiling sampleParse (1700000000000 - 1) 1700000000000
           "2023-11-14T22:13:20Z").
  reflexivity.
Defined.

(** ** The dashboard shell *)

Module DashboardFacts.
Import Dashboard.

Section Shell.

Variable Number : string -> number.

#[local] Abbreviation step' := (step Number).
#[local] Abbreviation steps' := (steps Number).

Lemma mainContent_nav (tab : string) :
  tab ∈ navItems -> length (mainContent tab) = 1%nat.
Proof.
  unfold navItems. intros H.
  repeat (apply elem_of_cons in H as [-> | H]; [reflexivity|]).
  now apply elem_of_nil in H.
Qed.

Lemma step_invariant (ev : Event) (st : State) :
  Invariant st -> Invariant (step' ev st).
Proof.
  intros [Hw Hs Ht Hwal Hl Ho Ha].
  destruct ev; cbn [step].
  - destruct (bool_decide _) eqn:Hin; [|now constructor].
    apply bool_decide_eq_true in Hin. now constructor.
  - now constructor.
  - now constructor.
  - rewrite Hwal. cbn. rewrite andb_false_r. now constructor.
  - rewrite Hw. now constructor.
  - rewrite Hw. now constructor.
  - rewrite Hw. now constructor.
  - rewrite Hl. cbn.
    destruct link as [|[|[|[|link]]]]; cbn; rewrite ?andb_false_r;
      now constructor.
  - rewrite Hs. now constructor.
  - destruct (_ && _); [|now constructor].
    constructor; auto. cbn. unfold navItems.
    apply (bool_decide_unpack _). vm_compute. exact I.
  - destruct (String.eqb _ _); now constructor.
  - destruct (String.eqb _ _); now constructor.
  - destruct (String.eqb _ _); now constructor.
  - destruct (String.eqb _ _); [|now constructor].
    unfold handleCreatePaymentLink.
    destruct (_ || _); constructor; auto; cbn;
      apply Forall_app; (split; [exact Ha|]);
      (constructor; [auto | constructor]).
  - destruct (String.eqb _ _); now constructor.
Qed.

Lemma steps_invariant (evs : list Event) (st : State) :
  Invariant st -> Invariant (steps' evs st).
Proof.
  revert st. induction evs as [|ev evs IH]; intros st H; [exact H|].
  cbn [steps foldl]. apply IH. now apply step_invariant.
Qed.

Lemma initial_invariant : Invariant initialState.
Proof.
  constructor; try reflexivity.
  - apply (bool_decide_unpack _). vm_compute. exact I.
  - constructor.
Qed.

(** X17. However the shell is used from its initial state, it shows exactly
    one of its seven panels, and neither the withdrawal modal nor the share
    modal ever opens: the wallet cell holds zero and has no setter, so the
    Withdraw buttons stay disabled, and no social link is connected.  The
    only alerts ever raised are the two of the payment link form. *)
Theorem shell_always (evs : list Event) :
  let st := steps' evs initialState in
  length (mainContent (activeTab st)) = 1%nat
  /\ withdrawalModal st = false
  /\ shareModal st = false
  /\ Forall (fun a => a = "Please fill in item name and price"
                      \/ a = "Payment link functionality coming soon!")
       (alerts st).
Proof.
  intros st.
  destruct (steps_invariant evs initialState initial_invariant)
    as [Hw Hs Ht _ _ _ Ha].
  split; [now apply mainContent_nav|]. auto.
Qed.

(** X18. [handleWithdraw] raises exactly one alert.  It closes the modal
    and clears the amount exactly when the amount is non-empty and its
    number is greater than zero and at most the available balance, or is
    no number at all (NaN passes both checks); otherwise it leaves the
    modal and the amount as they are and says why.  With nothing available
    no number passes. *)
Theorem handleWithdraw_outcomes (st : State) :
  handleWithdraw Number st
  = (if withdrawal_passes Number st
     then setWithdrawalAmount ""
            (setWithdrawalModal false
               (alert "Withdrawal functionality coming soon!" st))
     else alert
            (if negb (Js.truthy (withdrawalAmount st))
                || number_le (Number (withdrawalAmount st)) 0
             then "Please enter a valid amount" else "Insufficient funds")
            st)
  /\ length (alerts (handleWithdraw Number st)) = S (length (alerts st))
  /\ ((available (wallet st) <= 0)%Q ->
      withdrawal_passes Number st = true ->
      Number (withdrawalAmount st) = NaN).
Proof.
  split; [|split].
  - unfold handleWithdraw, withdrawal_passes.
    destruct (Js.truthy (withdrawalAmount st)); cbn [negb orb andb];
      [|reflexivity].
    destruct (Number (withdrawalAmount st)) as [|v];
      cbn [number_le number_gt]; [reflexivity|].
    destruct (Qle_bool v 0); cbn [negb andb]; [reflexivity|].
    destruct (Qle_bool v (available (wallet st))); reflexivity.
  - unfold handleWithdraw.
    destruct (_ || _); [|destruct (number_gt _ _)]; cbn;
      rewrite length_app; cbn; lia.
  - unfold withdrawal_passes. intros Hav Hpass.
    apply andb_true_iff in Hpass as [_ Hpass].
    destruct (Number (withdrawalAmount st)) as [|v]; [reflexivity|].
    apply andb_true_iff in Hpass as [Hpos Hle].
    apply negb_true_iff in Hpos.
    apply Qle_bool_iff in Hle.
    assert (Hv : Qle_bool v 0 = true)
      by (apply Qle_bool_iff; now apply Qle_trans with (available (wallet st))).
    congruence.
Qed.

(** X19. [handleCreatePaymentLink] refuses, with an alert and the form
    untouched, exactly when the item name or the price is empty; otherwise
    it empties the three fields.  The description plays no part. *)
Theorem handleCreatePaymentLink_outcomes (st : State) :
  let st' := handleCreatePaymentLink st in
  (itemName (paymentLinkForm st) = "" \/ price (paymentLinkForm st) = "" ->
   st' = alert "Please fill in item name and price" st)
  /\ (itemName (paymentLinkForm st) <> "" /\ price (paymentLinkForm st) <> "" ->
      paymentLinkForm st' = {| itemName := ""; description := ""; price := "" |}
      /\ alerts st' = (alerts st ++ ["Payment link functionality coming soon!"])%list
      /\ activeTab st' = activeTab st).
Proof.
  intros st'. subst st'. unfold handleCreatePaymentLink. split.
  - intros [H | H]; rewrite H; cbn; rewrite ?orb_true_r; reflexivity.
  - intros [H1 H2]. apply truthy_true in H1, H2. rewrite H1, H2. cbn. auto.
Qed.

End Shell.

Lemma filter_length_split (p q : Order -> bool) (l : list Order) :
  (forall o, p o && q o = false) ->
  count (fun o => p o || q o) l = (count p l + count q l)%nat.
Proof.
  intros Hpq. unfold count. induction l as [|x l IH]; [reflexivity|].
  cbn [List.filter]. specialize (Hpq x).
  destruct (p x), (q x); cbn in *; try discriminate; rewrite ?IH; lia.
Qed.

(** X20. The counts of the home and wallet tabs, for any list of orders:
    the orders "pending confirmation" of the home tab are its new orders
    plus its active orders; the "orders pending" of the wallet tab count
    the disputed orders too; and those with the completed orders are all
    the orders. *)
Theorem order_counts (l : list Order) :
  pendingConfirmation l = (newOrders l + activeOrders l)%nat
  /\ walletPending l
     = (pendingConfirmation l
        + count (fun o => status_eqb (status o) Dispute) l)%nat
  /\ (walletPending l + completedOrders l)%nat = length l.
Proof.
  split; [|split].
  - apply filter_length_split. intros o. now destruct (status o).
  - unfold walletPending, pendingConfirmation.
    rewrite <- filter_length_split by (intros o; now destruct (status o)).
    unfold count. f_equal. apply List.filter_ext.
    intros o. now destruct (status o).
  - unfold walletPending, completedOrders, count.
    induction l as [|x l IH]; [reflexivity|].
    cbn [List.filter]. destruct (status_eqb (status x) Completed);
      cbn [negb length]; lia.
Qed.

(** X21. For any value of [activeTab] the main content holds at most one
    panel, and exactly one when the value is the id of a sidebar entry;
    a click on an entry shows its panel and closes the sidebar, whatever
    was shown. *)
Theorem mainContent_one_panel (Number : string -> number) (tab item : string)
    (st : State) :
  (length (mainContent tab) <= 1)%nat
  /\ (length (mainContent tab) = 1%nat <-> tab ∈ navItems)
  /\ (item ∈ navItems ->
      activeTab (step Number (NavClick item) st) = item
      /\ sidebarOpen (step Number (NavClick item) st) = false
      /\ length (mainContent (activeTab (step Number (NavClick item) st))) = 1%nat).
Proof.
  assert (Hcases : tab ∈ navItems \/ mainContent tab = []).
  { unfold mainContent, navItems.
    destruct (String.eqb_spec tab "home") as [->|H1]; [left; repeat constructor|].
    destruct (String.eqb_spec tab "orders") as [->|H2]; [left; repeat constructor|].
    destruct (String.eqb_spec tab "wallet") as [->|H3]; [left; repeat constructor|].
    destruct (String.eqb_spec tab "disputes") as [->|H4]; [left; repeat constructor|].
    destruct (String.eqb_spec tab "social") as [->|H5]; [left; repeat constructor|].
    destruct (String.eqb_spec tab "settings") as [->|H6]; [left; repeat constructor|].
    destruct (String.eqb_spec tab "support") as [->|H7]; [left; repeat constructor|].
    right. reflexivity. }
  split; [|split].
  - destruct Hcases as [H | H]; [rewrite mainContent_nav by exact H; lia|].
    rewrite H. cbn. lia.
  - split; [|apply mainContent_nav].
    intros Hlen. destruct Hcases as [H | H]; [exact H|].
    rewrite H in Hlen. discriminate.
  - intros Hitem. cbn [step].
    rewrite (bool_decide_eq_true_2 _ Hitem). cbn.
    split; [reflexivity|]. split; [reflexivity|]. now apply mainContent_nav.
Qed.

End DashboardFacts.

(** ** Instances *)

Lemma fetchOrderDetails_success_witness :
  let srv : Server := fun _ => Response true (JsonData None) in
  let c := settle 0 srv (start (fetchOrderDetails None "ORD-1") initialState) in
  orderDetailOpen (ui (state c)) = true
  /\ OrderDetailModal (selectedOrder (state c)) = None
  /\ step None sampleLower sampleParse (EvClick CloseDetail) c = c.
Proof.
  intros srv c.
  destruct (fetchOrderDetails_success None srv "ORD-1" initialState None
              CloseDetail sampleLower sampleParse) as (_ & _ & _ & _ & H);
    [reflexivity|].
  apply H. reflexivity.
Defined.

Lemma list_known_or_loading_always_witness :
  let c := steps None sampleLower sampleParse
             [EvFetchOrders; EvSettle 0 acceptingServer] mounted in
  orders (state (steps None sampleLower sampleParse
                   [EvFetchOrders; EvSetSearchQuery "x"] c)) <> None.
Proof.
  intros c.
  apply (list_known_or_loading_always None sampleLower sampleParse
           [EvFetchOrders; EvSettle 0 acceptingServer]
           [EvFetchOrders; EvSetSearchQuery "x"]).
  discriminate.
Defined.

Lemma rendered_rows_witness :
  let st := setFilterStatus "pending"
              (setOrders (Some [sampleOrder; sampleLater; sampleTwin]) initialState) in
  sampleTwin ∈ renderedOrders sampleLower sampleParse st
  /\ (sampleLater ∈ renderedOrders sampleLower sampleParse st -> False).
Proof.
  intros st.
  destruct (rendered_rows sampleLower sampleParse st sampleTwin pending)
    as (_ & Hin & _).
  destruct (rendered_rows sampleLower sampleParse st sampleLater pending)
    as (_ & _ & _ & Hstatus).
  split.
  - apply Hin. split; [|split; reflexivity].
    apply list_elem_of_In. cbn. auto.
  - intros H. specialize (Hstatus eq_refl H). discriminate.
Defined.

Lemma list_area_regions_witness :
  let st := state (steps None sampleLower sampleParse
                     [EvFetchOrders; EvSettle 0 acceptingServer] mounted) in
  orders st <> None
  /\ length (listArea st (renderedOrders sampleLower sampleParse st)) = 1%nat.
Proof.
  intros st.
  destruct (list_area_regions None sampleLower sampleParse
              [EvFetchOrders; EvSettle 0 acceptingServer]) as (_ & Hknown & Hone).
  split; [apply Hknown; reflexivity | exact Hone].
Defined.

Lemma handleWithdraw_outcomes_witness :
  let number := fun s : string => if String.eqb s "e" then NaN else Num 0 in
  let st := Dashboard.setWithdrawalAmount "e" Dashboard.initialState in
  Dashboard.withdrawalAmount (Dashboard.handleWithdraw number st) = ""
  /\ number (Dashboard.withdrawalAmount st) = NaN.
Proof.
  intros number st.
  destruct (DashboardFacts.handleWithdraw_outcomes number st) as (Heq & _ & Hnan).
  split.
  - rewrite Heq. reflexivity.
  - apply Hnan; [discriminate | reflexivity].
Defined.

Lemma handleCreatePaymentLink_outcomes_witness :
  let filled := Dashboard.setPaymentLinkForm
                  {| Dashboard.itemName := "Kettle";
                     Dashboard.description := "";
                     Dashboard.price := "2500" |} Dashboard.initialState in
  Dashboard.handleCreatePaymentLink Dashboard.initialState
  = Dashboard.alert "Please fill in item name and price" Dashboard.initialState
  /\ Dashboard.paymentLinkForm (Dashboard.handleCreatePaymentLink filled)
     = {| Dashboard.itemName := ""; Dashboard.description := "";
          Dashboard.price := "" |}.
Proof.
  intros filled. split.
  - apply (DashboardFacts.handleCreatePaymentLink_outcomes Dashboard.initialState).
    left. reflexivity.
  - apply (DashboardFacts.handleCreatePaymentLink_outcomes filled).
    split; discriminate.
Defined.

Lemma mainContent_one_panel_witness :
  Dashboard.activeTab
    (Dashboard.step (fun _ => NaN) (Dashboard.NavClick "wallet")
       Dashboard.initialState) = "wallet"
  /\ Dashboard.mainContent "wallet" = [Dashboard.WalletPanel]
  /\ (length (Dashboard.mainContent "Wallet") = 1%nat -> False).
Proof.
  destruct (DashboardFacts.mainContent_one_panel (fun _ => NaN) "Wallet" "wallet"
              Dashboard.initialState) as (_ & Hiff & Hnav).
  split; [|split].
  - apply Hnav. apply (bool_decide_unpack _). vm_compute. exact I.
  - reflexivity.
  - intros H. apply Hiff in H.
    apply (bool_decide_pack _) in H. vm_compute in H. exact H.
Defined.
